(** * Form validation engine of [src/js/index.js]

    A shallow embedding of the message templater
    ([replaceWithPlaceholders]), the rule factory ([validations]), the
    field registry ([settings], [LABELS]) and the validation engine
    ([validate]), followed by the properties proved about them.

    Conventions of the embedding.
    - A JavaScript string is a [string]; one [ascii] stands for one code
      unit, so [String.length] is the [.length] of the source.
    - The numbers handed to the rule factory are integers ([Z]); how a
      number prints is modelled for the safe integers, below 2^53 in
      magnitude.
    - An object literal used as a map is a [gmap string value] holding its
      own properties; reading a property also consults [Object.prototype],
      as the [o[k]] of the source does.
    - jQuery is outside the repository.  What the engine sees of it is the
      current value of each named input (read by [getValue]) and the calls
      made to [displayError]; both live in a [page], threaded through the
      engine by a state monad. *)

From Stdlib Require Import ZArith DecimalString Ascii String Lia.
From Equations Require Import Equations.
From stdpp Require Import gmap strings list functions.

Open Scope string_scope.

(** ** JavaScript values *)

Module JS.

(** The values that reach the templater: [undefined] (a property that is
    not there), integers, strings, and objects or functions (only the
    members objects inherit from [Object.prototype] are of that kind;
    [text] is what their conversion to a string gives). *)
Inductive value : Type :=
| undefined
| Num (n : Z)
| Str (s : string)
| Obj (text : string).

(** ToBoolean: [undefined], [0] and the empty string are falsy. *)
Definition truthy (v : value) : bool :=
  match v with
  | undefined => false
  | Num n => negb (n =? 0)%Z
  | Str s => negb (String.eqb s "")
  | Obj _ => true
  end.

(** [a || b]. *)
Definition logical_or (a b : value) : value := if truthy a then a else b.

(** The integers a JavaScript number holds exactly and prints as their
    decimal numeral: those below 2^53 in magnitude. *)
Definition safe_integer (n : Z) : bool := (Z.abs n <? 2 ^ 53)%Z.

(** Number to string, for a safe integer: its decimal numeral, with a
    minus sign when it is negative.  Larger numbers, which JavaScript
    prints with fewer digits or with an exponent, are outside the model:
    what is stated below about the numeral of a number is stated for safe
    integers. *)
Definition number_to_string (n : Z) : string :=
  NilZero.string_of_int (Z.to_int n).

(** ToString. *)
Definition to_string (v : value) : string :=
  match v with
  | undefined => "undefined"
  | Num n => number_to_string n
  | Str s => s
  | Obj text => text
  end.

(** The methods every object literal inherits. *)
Definition Object_prototype_methods : list string :=
  [ "constructor"; "hasOwnProperty"; "isPrototypeOf"; "propertyIsEnumerable";
    "toLocaleString"; "toString"; "valueOf";
    "__defineGetter__"; "__defineSetter__"; "__lookupGetter__"; "__lookupSetter__" ].

(** Reading a member of [Object.prototype].  A method prints as a native
    function under its own name; [constructor] is the function [Object],
    and [__proto__] reads the prototype itself, an object. *)
Definition Object_prototype (name : string) : value :=
  if String.eqb name "constructor"
  then Obj "function Object() { [native code] }"
  else if bool_decide (name ∈ Object_prototype_methods)
  then Obj ("function " ++ name ++ "() { [native code] }")
  else if String.eqb name "__proto__" then Obj "[object Object]"
  else undefined.

(** [o[name]] for an object literal [o]: its own property when there is
    one, the inherited one otherwise. *)
Definition get (o : gmap string value) (name : string) : value :=
  match o !! name with
  | Some v => v
  | None => Object_prototype name
  end.

End JS.

Import JS.

(** ** The regular expressions of the source *)

Module Regex.

Definition in_range (lo hi : nat) (c : ascii) : bool :=
  let n := nat_of_ascii c in ((lo <=? n) && (n <=? hi))%nat.

(** [\d] *)
Definition is_digit (c : ascii) : bool := in_range 48 57 c.

(** [[a-zA-Z\d]] *)
Definition is_alnum (c : ascii) : bool :=
  in_range 97 122 c || in_range 65 90 c || is_digit c.

(** [\w], that is [[A-Za-z0-9_]] *)
Definition is_word (c : ascii) : bool := is_alnum c || Ascii.eqb c "_".

(** [[a-zA-Z+\d]] *)
Definition is_local (c : ascii) : bool := is_alnum c || Ascii.eqb c "+".

(** The longest prefix whose characters satisfy [p], and what follows:
    how a greedy [[...]*] consumes its input. *)
Fixpoint span (p : ascii -> bool) (s : string) : string * string :=
  match s with
  | String c t =>
      if p c then let '(w, r) := span p t in (String c w, r) else ("", s)
  | EmptyString => ("", "")
  end.

(** [/{(\w+)}/] tried at the head of [s]: the captured name and the rest
    of the input after the closing brace.  The greedy [\w+] takes the
    whole run of word characters; giving some back cannot help, since
    the character after a shorter run is a word character, not [}]. *)
Definition match_placeholder (s : string) : option (string * string) :=
  match s with
  | String c t =>
      if Ascii.eqb c "{" then
        match span is_word t with
        | (String a w, String d r) =>
            if Ascii.eqb d "}" then Some (String a w, r) else None
        | _ => None
        end
      else None
  | EmptyString => None
  end.

(** [\w+] matches the whole of [s]: [s] can stand between the braces of a
    placeholder. *)
Fixpoint all_word (s : string) : bool :=
  match s with
  | String c t => is_word c && all_word t
  | EmptyString => true
  end.

Definition is_identifier (s : string) : bool :=
  match s with
  | String _ _ => all_word s
  | EmptyString => false
  end.

(** [[a-zA-Z\d]+\.[a-zA-Z\d]+] tried at the head of [s] (what must
    follow the [@]). *)
Definition match_domain (s : string) : bool :=
  match span is_alnum s with
  | (String _ _, String dot (String d _)) => Ascii.eqb dot "." && is_alnum d
  | _ => false
  end.

(** [/[a-zA-Z+\d]+@[a-zA-Z\d]+\.[a-zA-Z\d]+/.test(s)], not anchored:
    some [@] is preceded by a character of the first class and followed
    by a domain.  [before] tells whether the previous character is in the
    first class. *)
Fixpoint test_email_from (before : bool) (s : string) : bool :=
  match s with
  | EmptyString => false
  | String c t =>
      (before && Ascii.eqb c "@" && match_domain t)
      || test_email_from (is_local c) t
  end.

Definition test_email (s : string) : bool := test_email_from false s.

End Regex.

Import Regex.

(** A value together with the fact that it is the value of [a]: lets a
    definition by cases on [a] keep the equation of each case. *)
Definition inspect {A : Type} (a : A) : {b : A | a = b} := exist _ a eq_refl.

(** ** Message templater *)

(** [string.replace(/{(\w+)}/g, callback)]: the input is scanned from the
    left; where the pattern matches, the string form of what [callback]
    returns for the whole match and its captured group is emitted and the
    scan resumes after the match; elsewhere the character is copied and the
    scan moves on by one.  What the callback returns is never scanned
    again. *)
Equations? string_replace (callback : string -> string -> value) (s : string) : string
  by wf (String.length s) lt :=
  string_replace callback EmptyString := EmptyString;
  string_replace callback (String c t) with inspect (match_placeholder (String c t)) := {
    | exist _ (Some (name, rest)) _ =>
        to_string (callback ("{" ++ name ++ "}") name) ++ string_replace callback rest
    | exist _ None _ => String c (string_replace callback t) }.
Proof.
  - assert (Hspan : forall u, String.length (snd (span is_word u)) <= String.length u).
    { induction u as [|a u IH]; simpl; [lia|].
      destruct (is_word a); simpl; [|lia].
      destruct (span is_word u); simpl in *; lia. }
    simpl in e. specialize (Hspan t).
    destruct (Ascii.eqb c "{"); [|discriminate].
    destruct (span is_word t) as [[|a w] [|d r]]; try discriminate.
    destruct (Ascii.eqb d "}"); [|discriminate].
    inversion e; subst. simpl in *. lia.
  - simpl. lia.
Qed.

(** [replaceWithPlaceholders(string, replacements, unwrap = false)] *)
Definition replaceWithPlaceholders
  (string : String.string) (replacements : gmap String.string value)
  (unwrap : bool) : String.string :=
  string_replace
    (fun placeholderWithDelimiters placeholderWithoutDelimiters =>
       JS.logical_or (get replacements placeholderWithoutDelimiters)
             (Str (if unwrap then placeholderWithoutDelimiters
                   else placeholderWithDelimiters)))
    string.

(** ** Rules *)

(** What a validator returns: [true] ([Valid]) or the error string
    ([Invalid]).  The engine tells them apart with
    [typeof error === 'string']. *)
Inductive outcome : Type :=
| Valid
| Invalid (error : string).

(** The inputs of the form: the current value of each named field. *)
Definition form : Type := string -> string.

(** [getValue(attribute)] *)
Definition getValue (inputs : form) (attribute : string) : string :=
  inputs attribute.

(** A validator is a function of the value under validation.  The
    validators of the source read the form at most (through [getValue]) and
    write nothing, so a rule is given the inputs as they are when it is
    called. *)
Definition rule : Type := form -> string -> outcome.

(** [value.length] *)
Definition len (value : string) : Z := Z.of_nat (String.length value).

Module validations.

Definition required : rule :=
  fun _ value =>
    if (len value >? 0)%Z then Valid
    else Invalid "The {attribute} field is required.".

Definition email : rule :=
  fun _ value =>
    if test_email value then Valid
    else Invalid "The {attribute} must be a valid email address.".

Definition minLength (min : Z) : rule :=
  fun _ value =>
    if (len value >=? min)%Z then Valid
    else Invalid (replaceWithPlaceholders
                    "The {attribute} must be at least {min} characters."
                    {[ "min" := Num min ]} false).

Definition maxLength (max : Z) : rule :=
  fun _ value =>
    if (len value <=? max)%Z then Valid
    else Invalid (replaceWithPlaceholders
                    "The {attribute} must not be greater than {max} characters"
                    {[ "max" := Num max ]} false).

Definition betweenLength (min max : Z) : rule :=
  fun _ value =>
    if (len value <=? min)%Z && (len value >=? max)%Z then Valid
    else Invalid (replaceWithPlaceholders
                    "The {attribute} must be between {min} and {max} characters."
                    {[ "min" := Num min; "max" := Num max ]} false).

Definition confirmation (originalAttribute : string) : rule :=
  fun inputs value =>
    let originalValue := getValue inputs originalAttribute in
    if String.eqb value originalValue then Valid
    else Invalid "The {attribute} confirmation does not match.".

End validations.

(** ** The page and the engine's effects *)

(** The calls the engine makes, in the order it makes them: a validator
    applied to a value ([k] is its position in the field's list), and
    [displayError]. *)
Inductive call : Type :=
| Validation (attribute : string) (k : nat) (value : string)
| DisplayError (attribute error : string).

Record page : Type := Page { inputs : form; calls : list call }.

Definition M (A : Type) : Type := page -> A * page.

#[global] Instance M_ret : MRet M := fun A a p => (a, p).
#[global] Instance M_bind : MBind M :=
  fun A B f m p => let '(a, p') := m p in f a p'.

Definition read {A : Type} (f : form -> A) : M A :=
  fun p => (f (inputs p), p).

Definition record (c : call) : M unit :=
  fun p => (tt, Page (inputs p) (calls p ++ [c])).

(** [validation(value)] as the engine calls it. *)
Definition evaluate (attribute : string) (k : nat) (validation : rule)
  (value : string) : M outcome :=
  record (Validation attribute k value);;
  read (fun inputs => validation inputs value).

(** [displayError(attribute, error)] *)
Definition displayError (attribute error : string) : M unit :=
  record (DisplayError attribute error).

(** [hideError(attribute)] *)
Definition hideError (attribute : string) : M unit :=
  displayError attribute "".

(** ** Registry and engine *)

Definition LABELS : gmap string value :=
  {[ "confirm-password" := Str "password" ]}.

(** [Object.entries(settings)]: the fields in the order they are written
    (no key is an integer), each with its validators. *)
Definition settings : list (string * list rule) :=
  [ ("name", [validations.required]);
    ("email", [validations.required; validations.email]);
    ("username", [validations.required; validations.betweenLength 3 16]);
    ("password", [validations.required; validations.minLength 3]);
    ("confirm-password", [validations.confirmation "password"]) ].

(** The message as it is displayed: [{attribute}] gets the label of the
    field, or its name. *)
Definition finalize (attribute error : string) : string :=
  replaceWithPlaceholders error
    {[ "attribute" := JS.logical_or (get LABELS attribute) (Str attribute) ]} true.

(** [for (const validation of validations) { ... }] for one field; [k] is
    the position of the next validator.  The result is [isValid] after the
    loop. *)
Fixpoint for_validations (attribute : string) (k : nat)
  (validations : list rule) (isValid : bool) : M bool :=
  match validations with
  | [] => mret isValid
  | validation :: validations' =>
      value ← read (fun inputs => getValue inputs attribute);
      error ← evaluate attribute k validation value;
      match error with
      | Invalid error =>
          displayError attribute (finalize attribute error);;
          mret false
      | Valid =>
          hideError attribute;;
          for_validations attribute (S k) validations' isValid
      end
  end.

(** [for (const [attribute, validations] of Object.entries(settings))] *)
Fixpoint for_entries (entries : list (string * list rule)) (isValid : bool)
  : M bool :=
  match entries with
  | [] => mret isValid
  | (attribute, validations) :: entries' =>
      isValid' ← for_validations attribute 0 validations isValid;
      for_entries entries' isValid'
  end.

(** [validate()] over a given registry. *)
Definition validate_with (settings : list (string * list rule)) : M bool :=
  for_entries settings true.

(** [validate()] *)
Definition validate : M bool := validate_with settings.

(** ** Vocabulary of the statements *)

(** What [m] returns when it runs on [p], and the calls it adds. *)
Definition result_of {A : Type} (m : M A) (p : page) : A := (m p).1.

Definition calls_of {A : Type} (m : M A) (p : page) : list call :=
  drop (List.length (calls p)) (calls (m p).2).

Definition attribute_of (c : call) : string :=
  match c with
  | Validation attribute _ _ => attribute
  | DisplayError attribute _ => attribute
  end.

(** The calls that concern one field, in order. *)
Definition about (attribute : string) (l : list call) : list call :=
  filter (fun c => attribute_of c = attribute) l.

(** The texts [displayError] was given for a field, in order. *)
Definition shown (attribute : string) (l : list call) : list string :=
  omap (fun c => match c with DisplayError _ error => Some error | _ => None end)
       (about attribute l).

(** The validator passes on the current value of the field. *)
Definition passes (inputs : form) (attribute : string) (validation : rule) : Prop :=
  validation inputs (getValue inputs attribute) = Valid.

(** The calls of [n] validators in a row that accept [value], the first of
    them at position [k]: each is called, then the field's error is hidden. *)
Definition passing_calls (attribute value : string) (k n : nat) : list call :=
  flat_map (fun j => [Validation attribute j value; DisplayError attribute ""])
           (seq k n).

(** What one field of the registry contributes to a pass over the form
    with the given inputs: whether all its validators accepted, and the
    calls made for it. *)
Definition field_result (inputs : form) (entry : string * list rule) : bool :=
  result_of (for_validations entry.1 0 entry.2 true) (Page inputs []).

Definition field_calls (inputs : form) (entry : string * list rule) : list call :=
  calls_of (for_validations entry.1 0 entry.2 true) (Page inputs []).

(** ** The handlers of the form *)

(** What the handlers do to the browser besides the calls of [validate()]:
    [e.preventDefault()], [e.target.reset()], [hideErrors()] and
    [alert(message)]. *)
Inductive event : Type :=
| PreventDefault
| FormReset
| HideErrors
| Alert (message : string).

(** The document and what the handlers have done so far.  [defaults] are
    the values the markup gives the inputs, which a reset puts back. *)
Record window : Type :=
  Window { document : page; defaults : form; events : list event }.

Definition Handler (A : Type) : Type := window -> A * window.

#[global] Instance Handler_ret : MRet Handler := fun A a w => (a, w).
#[global] Instance Handler_bind : MBind Handler :=
  fun A B f m w => let '(a, w') := m w in f a w'.

Definition emit (e : event) : Handler unit :=
  fun w => (tt, Window (document w) (defaults w) (events w ++ [e])).

(** A computation of the engine, run on the document of the window. *)
Definition on_document {A : Type} (m : M A) : Handler A :=
  fun w => let '(a, p) := m (document w) in
           (a, Window p (defaults w) (events w)).

(** The inputs get their default values back. *)
Definition restore_defaults : Handler unit :=
  fun w => (tt, Window (Page (defaults w) (calls (document w)))
                       (defaults w) (events w)).

(** [hideErrors()] *)
Definition hideErrors : Handler unit := emit HideErrors.

(** The handler of [reset]. *)
Definition on_reset : Handler unit := hideErrors.

(** [e.target.reset()]: the browser fires the [reset] event of the form,
    which runs [on_reset], then resets the inputs. *)
Definition form_reset : Handler unit :=
  emit FormReset;;
  on_reset;;
  restore_defaults.

(** The handler of [submit]. *)
Definition on_submit : Handler unit :=
  emit PreventDefault;;
  on_document validate ≫= fun ok : bool =>
  if ok then
    form_reset;;
    hideErrors;;
    emit (Alert "Account has been created")
  else mret tt.

(** ** Vocabulary of the further statements *)

(** Every character of [s] satisfies [p]. *)
Fixpoint all_of (p : ascii -> bool) (s : string) : bool :=
  match s with
  | String c t => p c && all_of p t
  | EmptyString => true
  end.

(** No opening brace occurs in [s]. *)
Definition brace_free (s : string) : bool :=
  all_of (fun c => negb (Ascii.eqb c "{")) s.

(** What [{attribute}] becomes in the message displayed for a field whose
    name is not that of an inherited member: the label of [LABELS], else
    the name itself, and for the empty name the bare identifier of the
    placeholder. *)
Definition displayed_name (attribute : string) : string :=
  if String.eqb attribute "confirm-password" then "password"
  else if String.eqb attribute "" then "attribute"
  else attribute.

(** The two calls the engine makes for one validator of a field: the
    validator on the current value of the field, then [displayError] with
    the empty text if it accepted ([hideError]) and with its finalized
    error if it did not. *)
Definition step_calls (inputs : form) (step : string * nat * rule) : list call :=
  let '(attribute, k, validation) := step in
  let value := getValue inputs attribute in
  [ Validation attribute k value;
    DisplayError attribute
      match validation inputs value with
      | Valid => ""
      | Invalid error => finalize attribute error
      end ].

(** A bound as it reads in a displayed message: its numeral, or for zero
    the bare identifier of its placeholder. *)
Definition displayed_bound (name : string) (n : Z) : string :=
  if (n =? 0)%Z then name else number_to_string n.

(** * Properties *)

Lemma append_cons c s t : String c s ++ t = String c (s ++ t).
Proof. reflexivity. Qed.

Lemma append_nil s : "" ++ s = s.
Proof. reflexivity. Qed.

Lemma append_assoc (s t u : string) : (s ++ t) ++ u = s ++ t ++ u.
Proof. induction s as [|c s IH]; [reflexivity|]. rewrite !append_cons, IH. reflexivity. Qed.

Lemma length_append (s t : string) :
  String.length (s ++ t) = String.length s + String.length t.
Proof.
  induction s as [|c s IH]; [reflexivity|].
  rewrite append_cons. simpl. rewrite IH. reflexivity.
Qed.

Lemma span_app p s : s = fst (span p s) ++ snd (span p s).
Proof.
  induction s as [|c t IH]; simpl; [reflexivity|].
  destruct (p c); simpl; [|reflexivity].
  destruct (span p t); simpl in *. rewrite append_cons. f_equal. exact IH.
Qed.

Lemma match_placeholder_inv s name rest :
  match_placeholder s = Some (name, rest) ->
  s = "{" ++ name ++ "}" ++ rest /\ name <> "" /\
  span is_word (name ++ "}" ++ rest) = (name, "}" ++ rest).
Proof.
  destruct s as [|c t]; simpl; [discriminate|].
  destruct (Ascii.eqb_spec c "{") as [->|Hc]; [|discriminate].
  intros H.
  destruct (span is_word t) as [[|c w] [|d r]] eqn:Hs; try discriminate.
  destruct (Ascii.eqb_spec d "}") as [->|Hd]; [|discriminate].
  inversion H; subst. clear H.
  assert (Ht : t = String c w ++ "}" ++ rest).
  { rewrite (span_app is_word t), Hs. reflexivity. }
  split; [rewrite append_cons, append_nil; f_equal; exact Ht|].
  split; [discriminate|]. rewrite <- Ht. exact Hs.
Qed.

Lemma match_placeholder_shorter s name rest :
  match_placeholder s = Some (name, rest) -> String.length rest < String.length s.
Proof.
  intros H. apply match_placeholder_inv in H as (-> & _ & _).
  rewrite !length_append. simpl. lia.
Qed.

Lemma string_replace_nil f : string_replace f "" = "".
Proof. simp string_replace. reflexivity. Qed.

Lemma string_replace_cons f c t :
  string_replace f (String c t) =
  match match_placeholder (String c t) with
  | Some (name, rest) => to_string (f ("{" ++ name ++ "}") name) ++ string_replace f rest
  | None => String c (string_replace f t)
  end.
Proof.
  simp string_replace. unfold inspect.
  generalize (@eq_refl _ (match_placeholder (String c t))).
  generalize (match_placeholder (String c t)) at 2 4 5.
  intros [[name rest]|] e; simp string_replace; reflexivity.
Qed.

(** A character outside the class stops the greedy run where it stands,
    whatever comes after it. *)
Lemma span_stop p a c b :
  p c = false ->
  span p (a ++ String c b) = (fst (span p a), snd (span p a) ++ String c b).
Proof.
  intros Hc. induction a as [|x a IH].
  - rewrite append_nil. simpl. rewrite Hc. reflexivity.
  - rewrite append_cons. simpl. destruct (p x); [|reflexivity].
    rewrite IH. destruct (span p a). reflexivity.
Qed.

Lemma span_all_word x : all_word x = true -> span is_word x = (x, "").
Proof.
  induction x as [|c x IH]; simpl; [reflexivity|].
  intros [Hc Hx]%andb_prop. rewrite Hc, (IH Hx). reflexivity.
Qed.

Lemma match_placeholder_token x post :
  is_identifier x = true ->
  match_placeholder ("{" ++ x ++ "}" ++ post) = Some (x, post).
Proof.
  intros Hx. destruct x as [|c x]; [discriminate|].
  change ("{" ++ String c x ++ "}" ++ post)
    with (String "{" (String c x ++ String "}" post)).
  unfold match_placeholder. rewrite Ascii.eqb_refl.
  rewrite span_stop by reflexivity.
  rewrite (span_all_word (String c x) Hx). reflexivity.
Qed.

(** A match that starts before an opening brace ends before it. *)
Lemma match_placeholder_before pre q :
  pre <> "" ->
  match_placeholder (pre ++ String "{" q) =
  match match_placeholder pre with
  | Some (name, rest) => Some (name, rest ++ String "{" q)
  | None => None
  end.
Proof.
  destruct pre as [|c t]; [congruence|]. intros _.
  rewrite append_cons. unfold match_placeholder.
  destruct (Ascii.eqb c "{"); [|reflexivity].
  rewrite span_stop by reflexivity.
  destruct (span is_word t) as [[|a w] [|d r]]; simpl; try reflexivity.
  rewrite ?append_cons. destruct (Ascii.eqb d "}"); reflexivity.
Qed.

Lemma string_replace_token_cons f pre x post :
  is_identifier x = true ->
  string_replace f (pre ++ String "{" (x ++ String "}" post)) =
  string_replace f pre ++ to_string (f ("{" ++ x ++ "}") x) ++ string_replace f post.
Proof.
  intros Hx. remember (String.length pre) as n eqn:Hn. revert pre Hn.
  induction n as [n IH] using lt_wf_ind. intros pre ->.
  pose proof (match_placeholder_token x post Hx) as Htok.
  change ("{" ++ x ++ "}" ++ post) with (String "{" (x ++ String "}" post)) in Htok.
  destruct pre as [|c t].
  - rewrite append_nil, string_replace_nil, append_nil, string_replace_cons, Htok. reflexivity.
  - rewrite (string_replace_cons f c t), append_cons.
    rewrite string_replace_cons, <- append_cons, match_placeholder_before by discriminate.
    destruct (match_placeholder (String c t)) as [[name rest]|] eqn:E.
    + apply match_placeholder_shorter in E.
      rewrite (IH (String.length rest) E rest eq_refl).
      rewrite append_assoc. reflexivity.
    + rewrite append_cons. f_equal.
      apply (IH (String.length t)); [simpl; lia | reflexivity].
Qed.

(** The templater works token by token: around a placeholder, what comes
    before and what comes after are rendered on their own. *)
Lemma string_replace_token f pre x post :
  is_identifier x = true ->
  string_replace f (pre ++ "{" ++ x ++ "}" ++ post) =
  string_replace f pre ++ to_string (f ("{" ++ x ++ "}") x) ++ string_replace f post.
Proof. exact (string_replace_token_cons f pre x post). Qed.

Lemma replaceWithPlaceholders_token pre x post m unwrap :
  is_identifier x = true ->
  replaceWithPlaceholders (pre ++ "{" ++ x ++ "}" ++ post) m unwrap =
  replaceWithPlaceholders pre m unwrap
  ++ to_string (JS.logical_or (get m x) (Str (if unwrap then x else "{" ++ x ++ "}")))
  ++ replaceWithPlaceholders post m unwrap.
Proof.
  intros Hx. unfold replaceWithPlaceholders.
  rewrite string_replace_token by exact Hx. reflexivity.
Qed.

Lemma logical_or_falsy a b : truthy a = false -> JS.logical_or a b = b.
Proof. unfold JS.logical_or. intros ->. reflexivity. Qed.

(** ** The definitions at work *)

Example placeholders_are_braced_words :
  replaceWithPlaceholders "{{x} {} {a b} {a_1} {x" {[ "x" := Str "v" ]} true
  = "{v {} {a b} a_1 {x".
Proof. vm_compute. reflexivity. Qed.

Example replacement_is_not_scanned_again :
  replaceWithPlaceholders "{x}" {[ "x" := Str "{y}"; "y" := Str "z" ]} false
  = "{y}".
Proof. vm_compute. reflexivity. Qed.

Example email_pattern_is_not_anchored :
  map test_email ["a@b.co"; "bad"; "@b.co"; "a@b."; "a@.co"; "x a+@b1.c!"; "a@b-c.d"]
  = [true; false; false; false; false; true; false].
Proof. vm_compute. reflexivity. Qed.

Example label_of_confirm_password :
  finalize "confirm-password" "The {attribute} confirmation does not match."
  = "The password confirmation does not match.".
Proof. vm_compute. reflexivity. Qed.

(** The registry [{name: [required], email: [required, email]}] on
    [{name: "Ann", email: "a@b.co"}]: the result is [true] and every call to
    [displayError] carries the empty text. *)
Example pass_over_valid_form :
  validate_with [ ("name", [validations.required]);
                  ("email", [validations.required; validations.email]) ]
    (Page (fun a => if String.eqb a "name" then "Ann" else "a@b.co") [])
  = (true,
     Page (fun a => if String.eqb a "name" then "Ann" else "a@b.co")
       [ Validation "name" 0 "Ann"; DisplayError "name" "";
         Validation "email" 0 "a@b.co"; DisplayError "email" "";
         Validation "email" 1 "a@b.co"; DisplayError "email" "" ]).
Proof. reflexivity. Qed.

(** ** The templater's policy for unmatched and falsy placeholders *)

(** C5: a placeholder that is absent from the replacements is not always
    treated as not found.  [toString] is not a key of the empty object,
    yet [replacements["toString"]] reads the inherited method, which is
    truthy, and the templater writes its text where the policy for
    unmatched placeholders would have kept ["{toString}"]. *)
Theorem absent_inherited_name_is_found :
  (∅ : gmap string value) !! "toString" = None
  /\ replaceWithPlaceholders "{toString}" ∅ false
     = "function toString() { [native code] }"
  /\ replaceWithPlaceholders "{toString}" ∅ false <> "{toString}".
Proof.
  split; [reflexivity|]. split; [vm_compute; reflexivity|].
  vm_compute. discriminate.
Qed.

(** X21: a placeholder whose value, as [replacements[x]] reads it, is
    falsy ([undefined], zero or the empty string) is rendered as if it had
    not been found: the token stays as it is when [unwrap] is false and
    becomes the bare identifier when it is true, wherever the token stands
    in the template.  At ["{x}"], [{x: 0}] and [unwrap = false] the result
    is ["{x}"] (see the witness). *)
Theorem falsy_value_is_not_found pre x post m unwrap :
  is_identifier x = true ->
  truthy (get m x) = false ->
  replaceWithPlaceholders (pre ++ "{" ++ x ++ "}" ++ post) m unwrap =
  replaceWithPlaceholders pre m unwrap
  ++ (if unwrap then x else "{" ++ x ++ "}")
  ++ replaceWithPlaceholders post m unwrap.
Proof.
  intros Hx Hfalsy. rewrite replaceWithPlaceholders_token by exact Hx.
  rewrite logical_or_falsy by exact Hfalsy. reflexivity.
Qed.

Lemma falsy_value_is_not_found_zero :
  replaceWithPlaceholders "{x}" {[ "x" := Num 0 ]} false = "{x}".
Proof.
  exact (falsy_value_is_not_found "" "x" "" {[ "x" := Num 0 ]} false eq_refl eq_refl).
Defined.

(** C10: the same fallback under [unwrap = true]: a placeholder whose own
    entry in the replacement map is falsy (the empty string, zero) is
    replaced by its bare identifier, not by the falsy value.  At ["{x}"]
    and [{x: ""}] the result is ["x"] (see the witness). *)
Theorem falsy_value_unwraps_to_identifier pre x post (m : gmap string value) v :
  is_identifier x = true ->
  m !! x = Some v ->
  truthy v = false ->
  replaceWithPlaceholders (pre ++ "{" ++ x ++ "}" ++ post) m true =
  replaceWithPlaceholders pre m true ++ x ++ replaceWithPlaceholders post m true.
Proof.
  intros Hx Hm Hfalsy. rewrite replaceWithPlaceholders_token by exact Hx.
  unfold get. rewrite Hm, logical_or_falsy by exact Hfalsy. reflexivity.
Qed.

Lemma falsy_value_unwraps_to_identifier_empty :
  replaceWithPlaceholders "{x}" {[ "x" := Str "" ]} true = "x".
Proof.
  exact (falsy_value_unwraps_to_identifier
           "" "x" "" {[ "x" := Str "" ]} (Str "") eq_refl eq_refl eq_refl).
Defined.

(** C6: an unmatched placeholder is not always left unchanged or
    unwrapped.  The replacements [{min: 3}] hold nothing for [valueOf],
    yet under either policy the templater writes the text of the inherited
    method: neither ["{valueOf}"] when [unwrap] is false nor ["valueOf"]
    when it is true. *)
Theorem unmatched_inherited_name_is_replaced :
  ({[ "min" := Num 3 ]} : gmap string value) !! "valueOf" = None
  /\ replaceWithPlaceholders "{valueOf}" {[ "min" := Num 3 ]} false
     = "function valueOf() { [native code] }"
  /\ replaceWithPlaceholders "{valueOf}" {[ "min" := Num 3 ]} true
     = "function valueOf() { [native code] }"
  /\ replaceWithPlaceholders "{valueOf}" {[ "min" := Num 3 ]} false <> "{valueOf}"
  /\ replaceWithPlaceholders "{valueOf}" {[ "min" := Num 3 ]} true <> "valueOf".
Proof.
  split; [reflexivity|]. split; [vm_compute; reflexivity|].
  split; [vm_compute; reflexivity|]. split; vm_compute; discriminate.
Qed.

(** The two stages of rendering on the message of [minLength(3)].  With
    [{min: 3}] and [unwrap = false] the template gets its number and keeps
    [{attribute}]; rendering the result with [{attribute: "password"}] and
    [unwrap = true] gives the final message.  A placeholder for which
    [replacements[x]] is [undefined] is left as it is when [unwrap] is
    false and replaced by its bare identifier when [unwrap] is true. *)
Theorem render_in_two_stages :
  replaceWithPlaceholders
    "The {attribute} must be at least {min} characters." {[ "min" := Num 3 ]} false
  = "The {attribute} must be at least 3 characters."
  /\ replaceWithPlaceholders
       "The {attribute} must be at least 3 characters."
       {[ "attribute" := Str "password" ]} true
     = "The password must be at least 3 characters."
  /\ forall pre x post m unwrap,
       is_identifier x = true ->
       get m x = undefined ->
       replaceWithPlaceholders (pre ++ "{" ++ x ++ "}" ++ post) m unwrap =
       replaceWithPlaceholders pre m unwrap
       ++ (if unwrap then x else "{" ++ x ++ "}")
       ++ replaceWithPlaceholders post m unwrap.
Proof.
  split; [vm_compute; reflexivity|]. split; [vm_compute; reflexivity|].
  intros pre x post m unwrap Hx Hm.
  rewrite replaceWithPlaceholders_token by exact Hx.
  rewrite Hm. reflexivity.
Qed.

Lemma render_in_two_stages_unmatched :
  replaceWithPlaceholders "{x}" ∅ false = "{x}"
  /\ replaceWithPlaceholders "{x}" ∅ true = "x".
Proof.
  split.
  - exact (proj2 (proj2 render_in_two_stages) "" "x" "" ∅ false eq_refl eq_refl).
  - exact (proj2 (proj2 render_in_two_stages) "" "x" "" ∅ true eq_refl eq_refl).
Defined.

(** ** The rules *)

Lemma geb_true_iff a b : (a >=? b)%Z = true <-> (a >= b)%Z.
Proof. rewrite Z.geb_leb, Z.leb_le. lia. Qed.

Lemma minLength_template min :
  min <> 0%Z ->
  replaceWithPlaceholders "The {attribute} must be at least {min} characters."
    {[ "min" := Num min ]} false
  = "The {attribute} must be at least " ++ number_to_string min ++ " characters.".
Proof. destruct min; [congruence | |]; intros _; vm_compute; reflexivity. Qed.

(** C8: [minLength(min)] accepts exactly the values of length at least
    [min].  A shorter value gets the template rendered through the
    templater with [unwrap = false]: [{attribute}] is still a placeholder
    and the string form of [min] stands where [{min}] stood, which for a
    safe integer is its decimal numeral. *)
Theorem minLength_spec (min : Z) (inputs : form) (v : string) :
  (validations.minLength min inputs v = Valid <-> (len v >= min)%Z)
  /\ ((len v < min)%Z ->
      exists shown_min,
        validations.minLength min inputs v
        = Invalid (replaceWithPlaceholders
                     "The {attribute} must be at least {min} characters."
                     {[ "min" := Num min ]} false)
        /\ replaceWithPlaceholders
             "The {attribute} must be at least {min} characters."
             {[ "min" := Num min ]} false
           = "The {attribute} must be at least " ++ shown_min ++ " characters."
        /\ (safe_integer min = true -> shown_min = number_to_string min)).
Proof.
  unfold validations.minLength.
  destruct (len v >=? min)%Z eqn:E.
  - apply geb_true_iff in E. split; [tauto | lia].
  - assert (len v < min)%Z as Hlt.
    { destruct (Z_lt_ge_dec (len v) min) as [|Hge]; [assumption|].
      apply geb_true_iff in Hge. congruence. }
    split; [split; [discriminate | lia]|]. intros _.
    exists (number_to_string min). split; [reflexivity|].
    split; [|reflexivity].
    apply minLength_template. unfold len in Hlt. lia.
Qed.

Lemma minLength_spec_short :
  validations.minLength 3 (fun _ => "") "ab"
  = Invalid "The {attribute} must be at least 3 characters.".
Proof.
  destruct (proj2 (minLength_spec 3 (fun _ => "") "ab"))
    as (shown_min & H1 & H2 & H3); [reflexivity|].
  rewrite H1, H2, (H3 eq_refl). reflexivity.
Defined.

Lemma betweenLength_template min max :
  replaceWithPlaceholders
    "The {attribute} must be between {min} and {max} characters."
    {[ "min" := Num min; "max" := Num max ]} false
  = "The {attribute} must be between "
    ++ (if (min =? 0)%Z then "{min}" else number_to_string min)
    ++ " and "
    ++ (if (max =? 0)%Z then "{max}" else number_to_string max)
    ++ " characters.".
Proof. destruct min, max; vm_compute; reflexivity. Qed.

Lemma betweenLength_bounds (min max : Z) (inputs : form) (v : string) :
  validations.betweenLength min max inputs v = Valid
  <-> (len v <= min)%Z /\ (len v >= max)%Z.
Proof.
  unfold validations.betweenLength.
  destruct ((len v <=? min)%Z && (len v >=? max)%Z) eqn:E.
  - apply andb_prop in E as [E1%Z.leb_le E2%geb_true_iff]. tauto.
  - split; [discriminate|]. intros [H1 H2].
    apply Z.leb_le in H1. apply geb_true_iff in H2.
    rewrite H1, H2 in E. discriminate.
Qed.

(** C2, as the code has it: [betweenLength(min, max)] accepts a value
    exactly when its length is at most [min] and at least [max]; any other
    value gets the template in which the string forms of the bounds stand
    where [{min}] and [{max}] stood, for a safe integer its decimal
    numeral, except that a bound equal to zero is falsy for the templater
    and leaves its token in place. *)
Theorem betweenLength_spec (min max : Z) (inputs : form) (v : string) :
  (validations.betweenLength min max inputs v = Valid
   <-> (len v <= min)%Z /\ (len v >= max)%Z)
  /\ (~ ((len v <= min)%Z /\ (len v >= max)%Z) ->
      exists shown_min shown_max,
        validations.betweenLength min max inputs v
        = Invalid ("The {attribute} must be between "
                   ++ shown_min ++ " and " ++ shown_max ++ " characters.")
        /\ (safe_integer min = true ->
            shown_min = if (min =? 0)%Z then "{min}" else number_to_string min)
        /\ (safe_integer max = true ->
            shown_max = if (max =? 0)%Z then "{max}" else number_to_string max)).
Proof.
  split; [apply betweenLength_bounds|]. intros Hnot.
  exists (if (min =? 0)%Z then "{min}" else number_to_string min),
         (if (max =? 0)%Z then "{max}" else number_to_string max).
  split; [|split; reflexivity].
  unfold validations.betweenLength. rewrite betweenLength_template.
  destruct ((len v <=? min)%Z && (len v >=? max)%Z) eqn:E; [|reflexivity].
  apply andb_prop in E as [E1%Z.leb_le E2%geb_true_iff]. tauto.
Qed.

Lemma betweenLength_spec_username :
  validations.betweenLength 3 16 (fun _ => "") "bob"
  = Invalid "The {attribute} must be between 3 and 16 characters.".
Proof.
  destruct (proj2 (betweenLength_spec 3 16 (fun _ => "") "bob"))
    as (shown_min & shown_max & H & Hmin & Hmax).
  - vm_compute. intros [_ Hge]. apply Hge. reflexivity.
  - rewrite H, (Hmin eq_refl), (Hmax eq_refl). reflexivity.
Defined.

(** With [min = 0] the failing rule leaves [{min}] in the template instead
    of writing [0]: the message of C2 is not always the template with both
    bounds written in. *)
Lemma betweenLength_zero_bound_not_substituted :
  validations.betweenLength 0 5 (fun _ => "") "abc"
  = Invalid "The {attribute} must be between {min} and 5 characters."
  /\ validations.betweenLength 0 5 (fun _ => "") "abc"
     <> Invalid "The {attribute} must be between 0 and 5 characters.".
Proof. split; [vm_compute; reflexivity | vm_compute; discriminate]. Qed.

(** C7: the rule built by [confirmation(originalAttribute)] accepts a
    value exactly when it equals what [getValue] returns for the original
    field in the form as it is when the rule is called.  The rule holds
    the name of the field, not its value: called after the field has been
    set to [w], the same rule accepts exactly [w]. *)
Theorem confirmation_reads_live_value
  (originalAttribute : string) (inputs : string -> string) (v : string) :
  let r := validations.confirmation originalAttribute in
  (r inputs v = Valid <-> v = getValue inputs originalAttribute)
  /\ forall w : string,
       getValue (<[originalAttribute := w]> inputs) originalAttribute = w
       /\ (r (<[originalAttribute := w]> inputs) v = Valid <-> v = w).
Proof.
  assert (Hr : forall i : form,
             validations.confirmation originalAttribute i v = Valid
             <-> v = getValue i originalAttribute).
  { intros i. unfold validations.confirmation. cbv zeta.
    destruct (String.eqb_spec v (getValue i originalAttribute)) as [->|Hne].
    - tauto.
    - split; [discriminate | contradiction]. }
  cbv zeta. split; [apply Hr|]. intros w.
  assert (Hw : getValue (<[originalAttribute := w]> inputs) originalAttribute = w)
    by (unfold getValue; apply fn_lookup_insert).
  split; [exact Hw|]. rewrite Hr, Hw. reflexivity.
Qed.

(** ** The engine *)

(** *** One field *)

Section one_field.

Context (i : form) (a : string).

Lemma for_validations_cons k v vs b l :
  for_validations a k (v :: vs) b (Page i l) =
  match v i (getValue i a) with
  | Invalid e =>
      (false, Page i (l ++ [Validation a k (getValue i a);
                            DisplayError a (finalize a e)]))
  | Valid =>
      for_validations a (S k) vs b
        (Page i (l ++ [Validation a k (getValue i a); DisplayError a ""]))
  end.
Proof.
  cbn [for_validations].
  unfold evaluate, displayError, hideError, record, read, getValue.
  unfold mbind, M_bind, mret, M_ret.
  cbn. destruct (v i (i a)); cbn; rewrite <- app_assoc; reflexivity.
Qed.

Lemma passing_calls_S value k n :
  passing_calls a value k (S n) =
  ([Validation a k value; DisplayError a ""] ++ passing_calls a value (S k) n)%list.
Proof. reflexivity. Qed.

(** When every validator accepts, the loop runs to its end and leaves
    [isValid] as it found it. *)
Lemma for_validations_all_pass vs :
  forall k b l,
    Forall (passes i a) vs ->
    for_validations a k vs b (Page i l) =
    (b, Page i (l ++ passing_calls a (getValue i a) k (List.length vs))).
Proof.
  induction vs as [|v vs IH]; intros k b l Hall.
  - cbn. rewrite app_nil_r. reflexivity.
  - inversion Hall as [|? ? Hv Hvs]; subst.
    rewrite for_validations_cons, Hv, (IH _ _ _ Hvs).
    cbn [List.length]. rewrite passing_calls_S, <- app_assoc. reflexivity.
Qed.

(** At the first validator that rejects, the loop displays its message
    and breaks: what follows it in the list plays no part. *)
Lemma for_validations_first_failure (passing : list rule) (failing : rule)
  (later : list rule) error :
  forall k b l,
    Forall (passes i a) passing ->
    failing i (getValue i a) = Invalid error ->
    for_validations a k (passing ++ failing :: later) b (Page i l) =
    (false,
     Page i (l ++ passing_calls a (getValue i a) k (List.length passing)
               ++ [Validation a (k + List.length passing) (getValue i a);
                   DisplayError a (finalize a error)])).
Proof.
  induction passing as [|v vs IH]; intros k b l Hall Hfail.
  - cbn [app List.length]. rewrite for_validations_cons, Hfail.
    rewrite Nat.add_0_r. reflexivity.
  - inversion Hall as [|? ? Hv Hvs]; subst.
    rewrite <- app_comm_cons, for_validations_cons, Hv, (IH _ _ _ Hvs Hfail).
    cbn [List.length]. rewrite passing_calls_S, <- !app_assoc.
    replace (S k + List.length vs) with (k + S (List.length vs)) by lia. reflexivity.
Qed.

(** Either every validator of the list passes, or there is a first one
    that fails. *)
Lemma first_failure_or_none (vs : list rule) :
  Forall (passes i a) vs
  \/ exists (passing : list rule) (failing : rule) (later : list rule) error,
      vs = (passing ++ failing :: later)%list
      /\ Forall (passes i a) passing
      /\ failing i (getValue i a) = Invalid error.
Proof.
  induction vs as [|v vs IH]; [left; constructor|].
  destruct (v i (getValue i a)) as [|error] eqn:Hv.
  - destruct IH as [Hall | (passing & failing & later & e & -> & Hp & Hf)].
    + left. constructor; assumption.
    + right. exists (v :: passing), failing, later, e.
      split; [reflexivity|]. split; [constructor; assumption | assumption].
  - right. exists [], v, vs, error. split; [reflexivity|].
    split; [constructor | assumption].
Qed.

Lemma field_all_pass vs :
  Forall (passes i a) vs ->
  field_result i (a, vs) = true
  /\ field_calls i (a, vs) = passing_calls a (getValue i a) 0 (List.length vs).
Proof.
  intros Hall. unfold field_result, field_calls, result_of, calls_of. cbn [fst snd].
  rewrite (for_validations_all_pass vs 0 true [] Hall). split; reflexivity.
Qed.

Lemma field_first_failure (passing : list rule) (failing : rule)
  (later : list rule) error :
  Forall (passes i a) passing ->
  failing i (getValue i a) = Invalid error ->
  field_result i (a, passing ++ failing :: later)%list = false
  /\ field_calls i (a, passing ++ failing :: later)%list =
     (passing_calls a (getValue i a) 0 (List.length passing)
      ++ [Validation a (List.length passing) (getValue i a);
          DisplayError a (finalize a error)])%list.
Proof.
  intros Hall Hfail. unfold field_result, field_calls, result_of, calls_of. cbn [fst snd].
  rewrite (for_validations_first_failure passing failing later error 0 true []
             Hall Hfail).
  split; reflexivity.
Qed.

End one_field.

(** Case analysis on the validators of a field: all pass ([Hall]), or
    [vs] is [passing ++ failing :: later] with [Hall] for [passing] and
    [Hfail] for [failing]. *)
Ltac first_failure_cases i a vs :=
  destruct (first_failure_or_none i a vs)
    as [Hall | (passing & failing & later & error & -> & Hall & Hfail)].

Lemma for_validations_run a vs b i l :
  for_validations a 0 vs b (Page i l) =
  (field_result i (a, vs) && b, Page i (l ++ field_calls i (a, vs))).
Proof.
  first_failure_cases i a vs.
  - destruct (field_all_pass i a vs Hall) as [-> ->].
    rewrite for_validations_all_pass by exact Hall. reflexivity.
  - destruct (field_first_failure i a passing failing later error Hall Hfail)
      as [-> ->].
    rewrite (for_validations_first_failure i a passing failing later error)
      by assumption.
    reflexivity.
Qed.

Lemma field_result_true i a vs :
  field_result i (a, vs) = true <-> Forall (passes i a) vs.
Proof.
  split.
  - intros Hres. first_failure_cases i a vs; [exact Hall|].
    destruct (field_first_failure i a passing failing later error Hall Hfail)
      as [Hfalse _].
    congruence.
  - intros Hall. apply (field_all_pass i a vs Hall).
Qed.

(** *** The whole registry *)

Lemma for_entries_run st :
  forall b i l,
    for_entries st b (Page i l) =
    (forallb (field_result i) st && b, Page i (l ++ flat_map (field_calls i) st)).
Proof.
  induction st as [|[a vs] st IH]; intros b i l.
  - cbn. rewrite app_nil_r. reflexivity.
  - cbn [for_entries]. unfold mbind, M_bind.
    rewrite for_validations_run, IH. cbn [forallb flat_map].
    rewrite <- app_assoc. f_equal.
    destruct (field_result i (a, vs)), (forallb (field_result i) st), b; reflexivity.
Qed.

Lemma validate_with_run st p :
  validate_with st p =
  (forallb (field_result (inputs p)) st,
   Page (inputs p) (calls p ++ flat_map (field_calls (inputs p)) st)).
Proof.
  destruct p as [i l]. unfold validate_with. rewrite for_entries_run.
  rewrite andb_true_r. reflexivity.
Qed.

Lemma validate_with_result st p :
  result_of (validate_with st) p = forallb (field_result (inputs p)) st.
Proof. unfold result_of. rewrite validate_with_run. reflexivity. Qed.

Lemma validate_with_calls st p :
  calls_of (validate_with st) p = flat_map (field_calls (inputs p)) st.
Proof.
  unfold calls_of. rewrite validate_with_run. cbn [snd calls].
  apply drop_app_length.
Qed.

(** The verdict of a pass: every validator of every field accepts. *)
Lemma validate_with_true st p :
  result_of (validate_with st) p = true
  <-> forall attribute validations validation,
        (attribute, validations) ∈ st -> validation ∈ validations ->
        passes (inputs p) attribute validation.
Proof.
  rewrite validate_with_result, forallb_forall. split.
  - intros H a vs v Hin Hv. apply list_elem_of_In in Hin.
    apply H, field_result_true in Hin.
    rewrite Forall_forall in Hin. apply Hin, list_elem_of_In, Hv.
  - intros H [a vs] Hin. apply field_result_true, Forall_forall.
    intros v Hv. apply (H a vs v); apply list_elem_of_In; assumption.
Qed.

(** *** The calls that concern one field *)

Lemma passing_calls_attribute a value k n :
  Forall (fun c => attribute_of c = a) (passing_calls a value k n).
Proof.
  revert k. induction n as [|n IH]; intros k; [constructor|].
  rewrite passing_calls_S. repeat constructor. apply IH.
Qed.

Lemma field_calls_attribute i a vs :
  Forall (fun c => attribute_of c = a) (field_calls i (a, vs)).
Proof.
  first_failure_cases i a vs.
  - destruct (field_all_pass i a vs Hall) as [_ ->]. apply passing_calls_attribute.
  - destruct (field_first_failure i a passing failing later error Hall Hfail)
      as [_ ->].
    apply Forall_app. split; [apply passing_calls_attribute | repeat constructor].
Qed.

Lemma about_all a l :
  Forall (fun c => attribute_of c = a) l -> about a l = l.
Proof.
  unfold about. induction 1 as [|c l Hc _ IH]; [reflexivity|].
  rewrite filter_cons_True by exact Hc. f_equal. exact IH.
Qed.

Lemma about_none a a' l :
  a <> a' -> Forall (fun c => attribute_of c = a) l -> about a' l = [].
Proof.
  unfold about. intros Hne. induction 1 as [|c l Hc _ IH]; [reflexivity|].
  rewrite filter_cons_False by congruence. exact IH.
Qed.

Lemma about_app a l1 l2 : about a (l1 ++ l2)%list = (about a l1 ++ about a l2)%list.
Proof. apply list.filter_app. Qed.

Lemma about_absent i a (st : list (string * list rule)) :
  a ∉ st.*1 -> about a (flat_map (field_calls i) st) = [].
Proof.
  induction st as [|[a0 vs0] st IH]; intros Hnot; [reflexivity|].
  cbn [flat_map]. rewrite about_app. cbn in Hnot.
  apply not_elem_of_cons in Hnot as [Hne Hnot].
  rewrite (about_none a0 a) by (try apply field_calls_attribute; congruence).
  apply IH, Hnot.
Qed.

(** With distinct field names, the calls that concern a field are those
    its own entry contributes. *)
Lemma about_field i a vs (st : list (string * list rule)) :
  NoDup st.*1 -> (a, vs) ∈ st ->
  about a (flat_map (field_calls i) st) = field_calls i (a, vs).
Proof.
  induction st as [|[a0 vs0] st IH]; intros Hnd Hin.
  - apply elem_of_nil in Hin. contradiction.
  - cbn in Hnd. inversion Hnd as [|? ? Hnot Hnd']; subst.
    cbn [flat_map]. rewrite about_app.
    apply elem_of_cons in Hin as [Heq | Hin].
    + inversion Heq; subst a0 vs0.
      rewrite about_all by apply field_calls_attribute.
      rewrite about_absent by exact Hnot. apply app_nil_r.
    + assert (a0 <> a) as Hne.
      { intros ->. apply Hnot. apply list_elem_of_fmap. exists (a, vs). auto. }
      rewrite (about_none a0 a) by (try apply field_calls_attribute; congruence).
      apply IH; assumption.
Qed.

Lemma shown_passing_calls a value k n :
  shown a (passing_calls a value k n) = repeat "" n.
Proof.
  unfold shown. rewrite about_all by apply passing_calls_attribute.
  revert k. induction n as [|n IH]; intros k; [reflexivity|].
  rewrite passing_calls_S. cbn. f_equal. apply IH.
Qed.

Lemma about_idemp a l : about a (about a l) = about a l.
Proof.
  apply about_all. unfold about. apply Forall_forall. intros c Hc.
  apply list_elem_of_In, list_elem_of_filter in Hc. tauto.
Qed.

Lemma shown_about a l : shown a (about a l) = shown a l.
Proof. unfold shown. rewrite about_idemp. reflexivity. Qed.

Lemma shown_first_failure a value n error :
  shown a (passing_calls a value 0 n
           ++ [Validation a n value; DisplayError a error])%list
  = (repeat "" n ++ [error])%list.
Proof.
  pose proof (shown_passing_calls a value 0 n) as Hpass. unfold shown in *.
  rewrite about_all in Hpass by apply passing_calls_attribute.
  rewrite about_all.
  - rewrite omap_app, Hpass. reflexivity.
  - apply Forall_app. split; [apply passing_calls_attribute | repeat constructor].
Qed.

Lemma elem_of_passing_calls c a value k n :
  c ∈ passing_calls a value k n ->
  (exists j, c = Validation a j value /\ k <= j < k + n) \/ c = DisplayError a "".
Proof.
  revert k. induction n as [|n IH]; intros k Hc.
  - apply elem_of_nil in Hc. contradiction.
  - rewrite passing_calls_S in Hc. cbn in Hc.
    apply elem_of_cons in Hc as [-> | Hc]; [left; exists k; split; [reflexivity | lia]|].
    apply elem_of_cons in Hc as [-> | Hc]; [right; reflexivity|].
    destruct (IH _ Hc) as [(j & -> & Hj) | ->]; [|right; reflexivity].
    left. exists j. split; [reflexivity | lia].
Qed.

(** ** The engine: what a pass returns and displays *)

(** C1: over a registry with distinct field names, [validate()] returns
    [true] exactly when every validator of every field accepts the field's
    current value.  When a field has a first failing validator the result
    is [false] and the texts displayed for that field are empty ones (one
    per validator that accepted before it) followed by one message, the
    failing validator's error with [{attribute}] filled in.  A field whose
    validators all accept is only ever given the empty text. *)
Theorem validate_gate (st : list (string * list rule)) (p : page) :
  NoDup st.*1 ->
  let i := inputs p in
  let result := result_of (validate_with st) p in
  let new := calls_of (validate_with st) p in
  (result = true
   <-> forall attribute validations validation,
         (attribute, validations) ∈ st -> validation ∈ validations ->
         passes i attribute validation)
  /\ (forall attribute (passing : list rule) (failing : rule) (later : list rule) error,
        (attribute, passing ++ failing :: later)%list ∈ st ->
        Forall (passes i attribute) passing ->
        failing i (getValue i attribute) = Invalid error ->
        result = false
        /\ shown attribute new
           = (repeat "" (List.length passing) ++ [finalize attribute error])%list)
  /\ (forall attribute validations,
        (attribute, validations) ∈ st ->
        Forall (passes i attribute) validations ->
        shown attribute new = repeat "" (List.length validations)).
Proof.
  intros Hnd i result new. subst i result new.
  split; [apply validate_with_true|]. split.
  - intros a passing failing later error Hin Hall Hfail. split.
    + destruct (result_of (validate_with st) p) eqn:Hres; [|reflexivity].
      pose proof (proj1 (validate_with_true st p) Hres _ _ failing Hin) as Hpass.
      unfold passes in Hpass. rewrite Hfail in Hpass.
      discriminate Hpass. apply elem_of_app. right. left.
    + rewrite validate_with_calls, <- shown_about, (about_field _ _ _ _ Hnd Hin).
      destruct (field_first_failure _ a passing failing later error Hall Hfail)
        as [_ ->].
      apply shown_first_failure.
  - intros a vs Hin Hall.
    rewrite validate_with_calls, <- shown_about, (about_field _ _ _ _ Hnd Hin).
    destruct (field_all_pass _ a vs Hall) as [_ ->].
    apply shown_passing_calls.
Qed.

(** Two passes.  The registry [{name: [required], email: [required, email]}]
    on a form whose name is empty and whose email is ["bad"]: the result
    is [false], the name gets the [required] message, and the email one
    empty text (for [required]) then the email message.  And [validate()]
    itself on a form filled in with care: the name only gets the empty
    text, yet the username gets the message of [betweenLength(3, 16)]. *)
Lemma validate_gate_examples :
  let st := [ ("name", [validations.required]);
              ("email", [validations.required; validations.email]) ] in
  let p := Page (fun a => if String.eqb a "email" then "bad" else "") [] in
  let filled :=
    Page (fun a => if String.eqb a "name" then "Ann"
                   else if String.eqb a "email" then "a@b.co"
                   else if String.eqb a "username" then "ann_b"
                   else "secret") [] in
  (result_of (validate_with st) p = false
   /\ shown "name" (calls_of (validate_with st) p)
      = ["The name field is required."]
   /\ shown "email" (calls_of (validate_with st) p)
      = [""; "The email must be a valid email address."])
  /\ (result_of validate filled = false
      /\ shown "name" (calls_of validate filled) = [""]
      /\ shown "username" (calls_of validate filled)
         = [""; "The username must be between 3 and 16 characters."]).
Proof.
  intros st p filled. split.
  - assert (Hnd : NoDup st.*1) by compute_done.
    destruct (validate_gate st p Hnd) as (_ & Hfail & _).
    destruct (Hfail "name" [] validations.required []
                "The {attribute} field is required.") as [Hres Hname];
      [left | constructor | reflexivity |].
    destruct (Hfail "email" [validations.required] validations.email []
                "The {attribute} must be a valid email address.") as [_ Hemail];
      [right; left | repeat constructor | reflexivity |].
    split; [exact Hres|]. split; [exact Hname | exact Hemail].
  - assert (Hnd : NoDup settings.*1) by compute_done.
    destruct (validate_gate settings filled Hnd) as (_ & Hfail & Hpass).
    destruct (Hfail "username" [validations.required]
                (validations.betweenLength 3 16) []
                "The {attribute} must be between 3 and 16 characters.")
      as [Hres Husername];
      [do 2 right; left | repeat constructor | reflexivity |].
    split; [exact Hres|]. split; [|exact Husername].
    apply (Hpass "name" [validations.required]); [left | repeat constructor].
Defined.

(** C3: with the registry of the source, [validate()] returns [false]
    whatever the fields hold: no value passes [betweenLength(3, 16)],
    which wants a length at most 3 and at least 16, and the empty value
    does not pass [required]; so the username field always fails. *)
Theorem validate_settings_always_false :
  (forall p : page, result_of validate p = false)
  /\ (forall (inputs : form) (value : string),
        validations.betweenLength 3 16 inputs value <> Valid)
  /\ (forall inputs : form, validations.required inputs "" <> Valid).
Proof.
  assert (Hbetween : forall (inputs : form) (value : string),
             validations.betweenLength 3 16 inputs value <> Valid).
  { intros inputs value H.
    apply (proj1 (betweenLength_bounds 3 16 inputs value)) in H. lia. }
  split; [|split; [exact Hbetween | intros inputs; vm_compute; discriminate]].
  intros p. destruct (result_of validate p) eqn:Hres; [|reflexivity].
  exfalso. unfold validate in Hres.
  apply (Hbetween (inputs p) (getValue (inputs p) "username")).
  apply (proj1 (validate_with_true settings p) Hres "username"
           [validations.required; validations.betweenLength 3 16]).
  - unfold settings. do 2 right. left.
  - right. left.
Qed.

(** C4: in a pass over a registry with distinct field names, a field whose
    validator at position [n] is the first to fail has exactly these
    calls: the [n] validators before it, each followed by the hiding of the
    error, then the failing validator and the display of its message.  No
    validator at a later position is called, and the only texts displayed
    for the field are the empty one and the first failing validator's
    message. *)
Theorem first_failure_stops_field
  (st : list (string * list rule)) (p : page) attribute
  (passing : list rule) (failing : rule) (later : list rule) error :
  NoDup st.*1 ->
  (attribute, passing ++ failing :: later)%list ∈ st ->
  Forall (passes (inputs p) attribute) passing ->
  failing (inputs p) (getValue (inputs p) attribute) = Invalid error ->
  let value := getValue (inputs p) attribute in
  let new := calls_of (validate_with st) p in
  about attribute new
  = (passing_calls attribute value 0 (List.length passing)
     ++ [Validation attribute (List.length passing) value;
         DisplayError attribute (finalize attribute error)])%list
  /\ (forall k value', Validation attribute k value' ∈ new -> k <= List.length passing)
  /\ (forall text, DisplayError attribute text ∈ new ->
        text = "" \/ text = finalize attribute error).
Proof.
  intros Hnd Hin Hall Hfail value new. subst value new.
  assert (Habout :
    about attribute (calls_of (validate_with st) p)
    = (passing_calls attribute (getValue (inputs p) attribute) 0 (List.length passing)
       ++ [Validation attribute (List.length passing) (getValue (inputs p) attribute);
           DisplayError attribute (finalize attribute error)])%list).
  { rewrite validate_with_calls, (about_field _ _ _ _ Hnd Hin).
    apply (field_first_failure _ attribute passing failing later error Hall Hfail). }
  assert (Hmem : forall c, attribute_of c = attribute ->
             c ∈ calls_of (validate_with st) p ->
             c ∈ (passing_calls attribute (getValue (inputs p) attribute) 0
                    (List.length passing)
                  ++ [Validation attribute (List.length passing)
                        (getValue (inputs p) attribute);
                      DisplayError attribute (finalize attribute error)])%list).
  { intros c Hc Hin'. rewrite <- Habout. apply list_elem_of_filter. auto. }
  split; [exact Habout|]. split.
  - intros k value' Hk. apply Hmem in Hk; [|reflexivity].
    apply elem_of_app in Hk as [Hk | Hk].
    + apply elem_of_passing_calls in Hk as [(j & Hj & Hlt) | Hk]; [|discriminate].
      inversion Hj; subst. lia.
    + apply elem_of_cons in Hk as [Hk | Hk]; [inversion Hk; lia|].
      apply elem_of_cons in Hk as [Hk | Hk]; [discriminate|].
      apply elem_of_nil in Hk. contradiction.
  - intros text Ht. apply Hmem in Ht; [|reflexivity].
    apply elem_of_app in Ht as [Ht | Ht].
    + apply elem_of_passing_calls in Ht as [(j & Hj & _) | Ht]; [discriminate|].
      inversion Ht. left. reflexivity.
    + apply elem_of_cons in Ht as [Ht | Ht]; [discriminate|].
      apply elem_of_cons in Ht as [Ht | Ht]; [inversion Ht; right; reflexivity|].
      apply elem_of_nil in Ht. contradiction.
Qed.

(** A field with [required] then [minLength(5)] and an empty input: the
    only validator called is the one at position 0, and the only text
    displayed is the [required] message. *)
Lemma first_failure_stops_field_required :
  let st := [ ("password", [validations.required; validations.minLength 5]) ] in
  let p := Page (fun _ => "") [] in
  calls_of (validate_with st) p
  = [ Validation "password" 0 "";
      DisplayError "password" "The password field is required." ]
  /\ about "password" (calls_of (validate_with st) p)
     = [ Validation "password" 0 "";
         DisplayError "password" "The password field is required." ].
Proof.
  intros st p. split; [vm_compute; reflexivity|].
  refine (proj1 (first_failure_stops_field st p "password"
                   [] validations.required [validations.minLength 5]
                   "The {attribute} field is required." _ _ _ _)).
  - compute_done.
  - left.
  - constructor.
  - reflexivity.
Defined.

(** C9: a second [validate()] right after a first one, on the page the
    first one left, sees the same inputs, returns the same result and
    makes the same calls in the same order; the log of the page ends with
    that sequence twice. *)
Theorem validate_twice (st : list (string * list rule)) (p : page) :
  let p1 := (validate_with st p).2 in
  let p2 := (validate_with st p1).2 in
  inputs p1 = inputs p
  /\ result_of (validate_with st) p1 = result_of (validate_with st) p
  /\ calls_of (validate_with st) p1 = calls_of (validate_with st) p
  /\ calls p2
     = (calls p ++ calls_of (validate_with st) p
        ++ calls_of (validate_with st) p)%list.
Proof.
  intros p1 p2. subst p1 p2.
  rewrite !validate_with_result, !validate_with_calls, !validate_with_run.
  cbn [snd inputs calls]. rewrite <- app_assoc. repeat split; reflexivity.
Qed.

(** * Further properties *)

(** ** The templater on text without placeholders *)

Lemma all_of_app p s t : all_of p (s ++ t) = all_of p s && all_of p t.
Proof.
  induction s as [|c s IH]; [reflexivity|].
  rewrite append_cons. simpl. rewrite IH, andb_assoc. reflexivity.
Qed.

Lemma all_of_impl (p q : ascii -> bool) s :
  (forall c, p c = true -> q c = true) -> all_of p s = true -> all_of q s = true.
Proof.
  intros Hpq. induction s as [|c s IH]; [reflexivity|]. simpl.
  intros [Hc Hs]%andb_prop. rewrite (Hpq c Hc), (IH Hs). reflexivity.
Qed.

Lemma string_replace_brace_free f s :
  brace_free s = true -> string_replace f s = s.
Proof.
  unfold brace_free. induction s as [|c s IH]; intros Hs.
  - apply string_replace_nil.
  - simpl in Hs. apply andb_prop in Hs as [Hc Hs].
    rewrite string_replace_cons. unfold match_placeholder.
    apply negb_true_iff in Hc. rewrite Hc, (IH Hs). reflexivity.
Qed.

(** X1: a string in which no opening brace occurs comes out of the
    templater as it went in, whatever the replacements and the policy. *)
Theorem brace_free_unchanged s m unwrap :
  brace_free s = true -> replaceWithPlaceholders s m unwrap = s.
Proof. intros Hs. apply string_replace_brace_free, Hs. Qed.

Lemma brace_free_unchanged_closing_braces :
  replaceWithPlaceholders "min} and max}" {[ "min" := Num 3 ]} true
  = "min} and max}".
Proof.
  exact (brace_free_unchanged "min} and max}" {[ "min" := Num 3 ]} true eq_refl).
Defined.

(** The numeral of an integer is made of digits and at most a sign. *)
Lemma number_to_string_digits n :
  all_of (fun c => is_digit c || Ascii.eqb c "-") (number_to_string n) = true.
Proof.
  assert (Hu : forall d, all_of (fun c => is_digit c || Ascii.eqb c "-")
                           (NilEmpty.string_of_uint d) = true).
  { induction d; simpl; try rewrite IHd; reflexivity. }
  assert (Hz : forall d, all_of (fun c => is_digit c || Ascii.eqb c "-")
                           (NilZero.string_of_uint d) = true).
  { intros d. unfold NilZero.string_of_uint. destruct d; try apply Hu. reflexivity. }
  unfold number_to_string, NilZero.string_of_int.
  destruct (Z.to_int n) as [d|d]; [apply Hz|].
  simpl. apply Hz.
Qed.

Lemma number_to_string_brace_free n : brace_free (number_to_string n) = true.
Proof.
  unfold brace_free. apply all_of_impl with (2 := number_to_string_digits n).
  intros c Hc.
  destruct c as [[] [] [] [] [] [] [] []]; try reflexivity; discriminate Hc.
Qed.

(** ** The message as it is displayed *)

Lemma get_LABELS attribute :
  get LABELS attribute =
  if String.eqb attribute "confirm-password" then Str "password"
  else Object_prototype attribute.
Proof.
  unfold get, LABELS.
  destruct (String.eqb_spec attribute "confirm-password") as [->|Hne].
  - rewrite lookup_singleton_eq. reflexivity.
  - rewrite lookup_singleton_ne by congruence. reflexivity.
Qed.

(** X2: in the message displayed for a field whose name is not that of
    an inherited member, [{attribute}] reads as the label of the field
    ([password] for [confirm-password]), else as the name of the field; a
    field whose name is empty reads [attribute]. *)
Theorem finalize_attribute attribute pre post :
  Object_prototype attribute = undefined ->
  finalize attribute (pre ++ "{attribute}" ++ post)
  = finalize attribute pre ++ displayed_name attribute
    ++ finalize attribute post.
Proof.
  intros Hp. unfold finalize.
  change (pre ++ "{attribute}" ++ post)
    with (pre ++ "{" ++ "attribute" ++ "}" ++ post).
  rewrite replaceWithPlaceholders_token by reflexivity.
  do 2 f_equal. unfold get at 1. rewrite lookup_singleton_eq, get_LABELS.
  unfold displayed_name, JS.logical_or.
  destruct (String.eqb attribute "confirm-password"); [reflexivity|].
  rewrite Hp. simpl. destruct (String.eqb attribute ""); reflexivity.
Qed.

Lemma finalize_attribute_label :
  finalize "confirm-password" "The {attribute} confirmation does not match."
  = "The password confirmation does not match."
  /\ finalize "" "The {attribute} field is required."
     = "The attribute field is required.".
Proof.
  split.
  - exact (finalize_attribute "confirm-password" "The "
             " confirmation does not match." eq_refl).
  - exact (finalize_attribute "" "The " " field is required." eq_refl).
Defined.

(** X3: any other placeholder left in a message is displayed as its bare
    identifier: the message shown to the user keeps no braced word, unless
    the word names an inherited member. *)
Theorem finalize_unwraps attribute pre x post :
  is_identifier x = true ->
  x <> "attribute" ->
  Object_prototype x = undefined ->
  finalize attribute (pre ++ "{" ++ x ++ "}" ++ post)
  = finalize attribute pre ++ x ++ finalize attribute post.
Proof.
  intros Hx Hne Hp. unfold finalize.
  rewrite replaceWithPlaceholders_token by exact Hx.
  unfold get. rewrite lookup_singleton_ne by congruence. rewrite Hp. reflexivity.
Qed.

Lemma finalize_unwraps_min :
  finalize "username" "The {attribute} must be between {min} and 5 characters."
  = "The username must be between min and 5 characters.".
Proof.
  exact (finalize_unwraps "username" "The {attribute} must be between "
           "min" " and 5 characters." eq_refl ltac:(discriminate) eq_refl).
Defined.

Lemma string_replace_brace_free_prefix f s t :
  brace_free s = true -> string_replace f (s ++ t) = s ++ string_replace f t.
Proof.
  unfold brace_free. induction s as [|c s IH]; intros Hs; [reflexivity|].
  simpl in Hs. apply andb_prop in Hs as [Hc Hs].
  rewrite !append_cons, string_replace_cons. rewrite <- append_cons.
  unfold match_placeholder. rewrite append_cons.
  apply negb_true_iff in Hc. rewrite Hc, (IH Hs). reflexivity.
Qed.

Lemma finalize_prefix attribute s t :
  brace_free s = true -> finalize attribute (s ++ t) = s ++ finalize attribute t.
Proof. intros Hs. apply string_replace_brace_free_prefix, Hs. Qed.

Lemma finalize_brace_free attribute s :
  brace_free s = true -> finalize attribute s = s.
Proof. intros Hs. apply string_replace_brace_free, Hs. Qed.

(** A bound written by a rule, or the placeholder the rule left for a zero
    bound, as the displayed message has it. *)
Lemma finalize_bound attribute name n post :
  is_identifier name = true ->
  name <> "attribute" ->
  Object_prototype name = undefined ->
  finalize attribute
    ((if (n =? 0)%Z then "{" ++ name ++ "}" else number_to_string n) ++ post)
  = displayed_bound name n ++ finalize attribute post.
Proof.
  intros Hid Hne Hp. unfold displayed_bound. destruct (n =? 0)%Z.
  - rewrite !append_assoc.
    pose proof (finalize_unwraps attribute "" name post Hid Hne Hp) as E.
    rewrite append_nil, (finalize_brace_free attribute "") in E by reflexivity.
    exact E.
  - apply finalize_prefix, number_to_string_brace_free.
Qed.

(** X4: what the user reads when [minLength(min)] rejects a value, for a
    safe integer [min] and a field whose name is not that of an inherited
    member: the sentence with the displayed name of the field and the
    numeral of [min]. *)
Theorem minLength_displayed attribute (min : Z) (inputs : form) (v : string) :
  Object_prototype attribute = undefined ->
  safe_integer min = true ->
  (len v < min)%Z ->
  exists error,
    validations.minLength min inputs v = Invalid error
    /\ finalize attribute error
       = "The " ++ displayed_name attribute ++ " must be at least "
         ++ number_to_string min ++ " characters.".
Proof.
  intros Hp _ Hlt. eexists. split.
  - unfold validations.minLength.
    destruct (len v >=? min)%Z eqn:E; [apply geb_true_iff in E; lia|].
    rewrite minLength_template by (unfold len in Hlt; lia). reflexivity.
  - change ("The {attribute} must be at least " ++ number_to_string min
            ++ " characters.")
      with ("The " ++ "{attribute}"
            ++ (" must be at least " ++ number_to_string min ++ " characters.")).
    rewrite finalize_attribute by exact Hp.
    rewrite (finalize_brace_free _ "The ") by reflexivity.
    rewrite (finalize_brace_free _ (" must be at least " ++ _)); [reflexivity|].
    unfold brace_free. rewrite !all_of_app.
    rewrite (number_to_string_brace_free min : all_of _ _ = true). reflexivity.
Qed.

Lemma minLength_displayed_password :
  exists error,
    validations.minLength 3 (fun _ => "ab") "ab" = Invalid error
    /\ finalize "confirm-password" error
       = "The password must be at least 3 characters.".
Proof.
  exact (minLength_displayed "confirm-password" 3 (fun _ => "ab") "ab"
           eq_refl eq_refl eq_refl).
Defined.

Lemma maxLength_template max :
  replaceWithPlaceholders
    "The {attribute} must not be greater than {max} characters"
    {[ "max" := Num max ]} false
  = "The {attribute} must not be greater than "
    ++ (if (max =? 0)%Z then "{max}" else number_to_string max)
    ++ " characters".
Proof. destruct max; vm_compute; reflexivity. Qed.

(** X5: [maxLength(max)] accepts exactly the values of length at most
    [max].  For a safe integer [max] a longer value gets the sentence with
    the numeral of [max], but for [max = 0] the rule leaves [{max}] in its
    message and the user (of a field whose name is not that of an
    inherited member) reads the bare word [max]. *)
Theorem maxLength_spec attribute (max : Z) (inputs : form) (v : string) :
  (validations.maxLength max inputs v = Valid <-> (len v <= max)%Z)
  /\ (Object_prototype attribute = undefined ->
      safe_integer max = true ->
      (len v > max)%Z ->
      validations.maxLength max inputs v
      = Invalid ("The {attribute} must not be greater than "
                 ++ (if (max =? 0)%Z then "{max}" else number_to_string max)
                 ++ " characters")
      /\ finalize attribute
           ("The {attribute} must not be greater than "
            ++ (if (max =? 0)%Z then "{max}" else number_to_string max)
            ++ " characters")
         = "The " ++ displayed_name attribute ++ " must not be greater than "
           ++ displayed_bound "max" max ++ " characters").
Proof.
  unfold validations.maxLength. rewrite maxLength_template.
  destruct (len v <=? max)%Z eqn:E.
  - apply Z.leb_le in E. split; [tauto | lia].
  - apply Z.leb_gt in E. split; [split; [discriminate | lia]|].
    intros Hp _ _. split; [reflexivity|].
    change ("The {attribute} must not be greater than "
            ++ (if (max =? 0)%Z then "{max}" else number_to_string max)
            ++ " characters")
      with ("The " ++ "{attribute}"
            ++ (" must not be greater than "
                ++ (if (max =? 0)%Z then "{" ++ "max" ++ "}"
                    else number_to_string max)
                ++ " characters")).
    rewrite finalize_attribute by exact Hp.
    rewrite (finalize_brace_free _ "The ") by reflexivity.
    rewrite (finalize_prefix _ " must not be greater than ") by reflexivity.
    rewrite finalize_bound by (reflexivity || discriminate).
    rewrite (finalize_brace_free _ " characters") by reflexivity. reflexivity.
Qed.

Lemma maxLength_spec_zero :
  validations.maxLength 0 (fun _ => "a") "a"
  = Invalid "The {attribute} must not be greater than {max} characters"
  /\ finalize "name" "The {attribute} must not be greater than {max} characters"
     = "The name must not be greater than max characters".
Proof.
  exact (proj2 (maxLength_spec "name" 0 (fun _ => "a") "a")
           eq_refl eq_refl eq_refl).
Defined.

(** X6: what the user reads when [betweenLength(min, max)] rejects a
    value, for safe integers [min] and [max] and a field whose name is not
    that of an inherited member: the sentence with the displayed name of
    the field and both bounds, a zero bound reading as the bare word [min]
    or [max]. *)
Theorem betweenLength_displayed attribute (min max : Z) (inputs : form)
  (v : string) :
  Object_prototype attribute = undefined ->
  safe_integer min = true ->
  safe_integer max = true ->
  ~ ((len v <= min)%Z /\ (len v >= max)%Z) ->
  exists error,
    validations.betweenLength min max inputs v = Invalid error
    /\ finalize attribute error
       = "The " ++ displayed_name attribute ++ " must be between "
         ++ displayed_bound "min" min ++ " and "
         ++ displayed_bound "max" max ++ " characters.".
Proof.
  intros Hp _ _ Hnot. eexists. split.
  - unfold validations.betweenLength. rewrite betweenLength_template.
    destruct ((len v <=? min)%Z && (len v >=? max)%Z) eqn:E; [|reflexivity].
    apply andb_prop in E as [E1%Z.leb_le E2%geb_true_iff]. tauto.
  - change ("The {attribute} must be between "
            ++ (if (min =? 0)%Z then "{min}" else number_to_string min)
            ++ " and "
            ++ (if (max =? 0)%Z then "{max}" else number_to_string max)
            ++ " characters.")
      with ("The " ++ "{attribute}"
            ++ (" must be between "
                ++ (if (min =? 0)%Z then "{" ++ "min" ++ "}"
                    else number_to_string min)
                ++ (" and "
                    ++ (if (max =? 0)%Z then "{" ++ "max" ++ "}"
                        else number_to_string max)
                    ++ " characters."))).
    rewrite finalize_attribute by exact Hp.
    rewrite (finalize_brace_free _ "The ") by reflexivity.
    rewrite (finalize_prefix _ " must be between ") by reflexivity.
    rewrite finalize_bound by (reflexivity || discriminate).
    rewrite (finalize_prefix _ " and ") by reflexivity.
    rewrite finalize_bound by (reflexivity || discriminate).
    rewrite (finalize_brace_free _ " characters.") by reflexivity. reflexivity.
Qed.

Lemma betweenLength_displayed_username :
  exists error,
    validations.betweenLength 3 16 (fun _ => "ann_b") "ann_b" = Invalid error
    /\ finalize "username" error
       = "The username must be between 3 and 16 characters.".
Proof.
  refine (betweenLength_displayed "username" 3 16 (fun _ => "ann_b") "ann_b"
            eq_refl eq_refl eq_refl _).
  vm_compute. intros [_ H]. apply H. reflexivity.
Defined.

(** ** Which values the rules accept *)

(** X7: called with [min < max], as the registry calls it, or with a
    negative [min], [betweenLength(min, max)] rejects every value. *)
Theorem betweenLength_rejects_all (min max : Z) (inputs : form) (v : string) :
  (min < max)%Z \/ (min < 0)%Z ->
  validations.betweenLength min max inputs v <> Valid.
Proof.
  intros Hbounds Hv. apply betweenLength_bounds in Hv. unfold len in Hv. lia.
Qed.

Lemma betweenLength_rejects_all_username :
  validations.betweenLength 3 16 (fun _ => "") "ann_b" <> Valid.
Proof.
  apply (betweenLength_rejects_all 3 16 (fun _ => "") "ann_b"). left. reflexivity.
Defined.

(** ** Placeholders that are found *)

(** X8: a placeholder for which the replacements hold a non-empty string
    is replaced by that string as it is, and one for which they hold a
    safe integer other than zero by its numeral, under either policy; the
    text put in is not scanned again, even when it holds placeholders of
    its own. *)
Theorem truthy_value_is_substituted pre x post (m : gmap string value) unwrap :
  is_identifier x = true ->
  (forall s, m !! x = Some (Str s) -> s <> "" ->
     replaceWithPlaceholders (pre ++ "{" ++ x ++ "}" ++ post) m unwrap
     = replaceWithPlaceholders pre m unwrap ++ s
       ++ replaceWithPlaceholders post m unwrap)
  /\ (forall n, m !! x = Some (Num n) -> n <> 0%Z -> safe_integer n = true ->
       replaceWithPlaceholders (pre ++ "{" ++ x ++ "}" ++ post) m unwrap
       = replaceWithPlaceholders pre m unwrap ++ number_to_string n
         ++ replaceWithPlaceholders post m unwrap).
Proof.
  intros Hx. split.
  - intros s Hm Hs. rewrite replaceWithPlaceholders_token by exact Hx.
    unfold get, JS.logical_or. rewrite Hm. cbn.
    destruct (String.eqb_spec s "") as [->|_]; [congruence | reflexivity].
  - intros n Hm Hn _. rewrite replaceWithPlaceholders_token by exact Hx.
    unfold get, JS.logical_or. rewrite Hm. cbn.
    destruct (Z.eqb_spec n 0) as [->|_]; [congruence | reflexivity].
Qed.

Lemma truthy_value_is_substituted_verbatim :
  replaceWithPlaceholders "a {x} b {y}" {[ "x" := Str "{y}"; "y" := Num 7 ]} false
  = "a {y} b 7".
Proof.
  refine (proj1 (truthy_value_is_substituted "a " "x" " b {y}"
                   {[ "x" := Str "{y}"; "y" := Num 7 ]} false eq_refl)
            "{y}" eq_refl _).
  discriminate.
Defined.

(** X9: a placeholder the replacements do not hold but whose name is that
    of a member every object inherits ([toString], [constructor], ...) is
    not left to the policy for unmatched placeholders: the member is found
    and its text is written, under either policy. *)
Theorem inherited_member_is_substituted pre x post (m : gmap string value) unwrap :
  is_identifier x = true ->
  m !! x = None ->
  truthy (Object_prototype x) = true ->
  replaceWithPlaceholders (pre ++ "{" ++ x ++ "}" ++ post) m unwrap
  = replaceWithPlaceholders pre m unwrap
    ++ to_string (Object_prototype x)
    ++ replaceWithPlaceholders post m unwrap.
Proof.
  intros Hx Hm Hp. rewrite replaceWithPlaceholders_token by exact Hx.
  unfold get, JS.logical_or. rewrite Hm, Hp. reflexivity.
Qed.

Lemma inherited_member_is_substituted_toString :
  replaceWithPlaceholders "{toString}" ∅ false
  = to_string (Object_prototype "toString")
  /\ to_string (Object_prototype "toString") <> "{toString}"
  /\ replaceWithPlaceholders "{constructor}" ∅ true
     = "function Object() { [native code] }".
Proof.
  split; [|split; [vm_compute; discriminate|]].
  - exact (inherited_member_is_substituted "" "toString" "" ∅ false
             eq_refl eq_refl eq_refl).
  - exact (inherited_member_is_substituted "" "constructor" "" ∅ true
             eq_refl eq_refl eq_refl).
Defined.

(** ** The pattern of [email] *)

Lemma span_all_of p x : all_of p x = true -> span p x = (x, "").
Proof.
  induction x as [|c x IH]; simpl; [reflexivity|].
  intros [Hc Hx]%andb_prop. rewrite Hc, (IH Hx). reflexivity.
Qed.

Lemma span_fst_all_of p s : all_of p (fst (span p s)) = true.
Proof.
  induction s as [|c s IH]; simpl; [reflexivity|].
  destruct (p c) eqn:Hc; [|reflexivity].
  destruct (span p s). simpl in *. rewrite Hc, IH. reflexivity.
Qed.

Lemma match_domain_iff t :
  match_domain t = true
  <-> exists domain e post,
        t = domain ++ "." ++ String e post
        /\ domain <> "" /\ all_of is_alnum domain = true /\ is_alnum e = true.
Proof.
  unfold match_domain. split.
  - pose proof (span_app is_alnum t) as Ht.
    pose proof (span_fst_all_of is_alnum t) as Hw.
    destruct (span is_alnum t) as [[|a w] [|dot [|e post]]]; try discriminate.
    intros [Hdot He]%andb_prop. apply Ascii.eqb_eq in Hdot. subst dot.
    exists (String a w), e, post. simpl in Ht, Hw.
    split; [exact Ht|]. split; [discriminate|]. split; assumption.
  - intros (domain & e & post & -> & Hne & Hall & He).
    change (domain ++ "." ++ String e post)
      with (domain ++ String "." (String e post)).
    rewrite span_stop by reflexivity. rewrite (span_all_of _ _ Hall). simpl.
    destruct domain as [|a w]; [congruence|]. rewrite ?append_nil. simpl.
    rewrite ?append_nil. exact He.
Qed.

Lemma test_email_from_iff s :
  forall before,
    test_email_from before s = true
    <-> (before = true /\ exists rest, s = String "@" rest /\ match_domain rest = true)
        \/ exists pre c rest,
             s = pre ++ String c (String "@" rest)
             /\ is_local c = true /\ match_domain rest = true.
Proof.
  induction s as [|a t IH]; intros before.
  - simpl. split; [discriminate|].
    intros [[_ (rest & H & _)] | (pre & c & rest & H & _)]; [discriminate|].
    destruct pre; discriminate.
  - simpl. rewrite orb_true_iff, !andb_true_iff, IH, Ascii.eqb_eq. split.
    + intros [[[Hb ->] Hm] | [[Hl (rest & -> & Hm)] | (pre & c & rest & -> & Hc & Hm)]].
      * left. split; [exact Hb|]. exists t. split; [reflexivity | exact Hm].
      * right. exists "", a, rest. split; [reflexivity|]. split; assumption.
      * right. exists (String a pre), c, rest. split; [reflexivity|].
        split; assumption.
    + intros [[Hb (rest & Heq & Hm)] | (pre & c & rest & Heq & Hc & Hm)].
      * inversion Heq; subst. left. repeat split; assumption.
      * right. destruct pre as [|a' pre].
        -- rewrite append_nil in Heq. inversion Heq; subst.
           left. split; [exact Hc|]. exists rest. split; [reflexivity | exact Hm].
        -- rewrite append_cons in Heq. inversion Heq; subst.
           right. exists pre, c, rest. split; [reflexivity|]. split; assumption.
Qed.

(** X10: [email] accepts a value exactly when, somewhere in it, an [@]
    stands right after a letter, a digit or a [+], and right before one or
    more letters or digits, a dot, and a letter or digit.  Nothing is
    asked of the text around that: the pattern is not anchored. *)
Theorem email_accepts (inputs : form) (v : string) :
  validations.email inputs v = Valid
  <-> exists pre c domain e post,
        v = pre ++ String c ("@" ++ domain ++ "." ++ String e post)
        /\ is_local c = true
        /\ domain <> "" /\ all_of is_alnum domain = true
        /\ is_alnum e = true.
Proof.
  assert (Hv : validations.email inputs v = Valid <-> test_email v = true).
  { unfold validations.email. destruct (test_email v); split; congruence. }
  rewrite Hv. unfold test_email. rewrite test_email_from_iff. split.
  - intros [[Hf _] | (pre & c & rest & -> & Hc & Hm)]; [discriminate|].
    apply match_domain_iff in Hm as (domain & e & post & -> & Hne & Hall & He).
    exists pre, c, domain, e, post. repeat split; assumption.
  - intros (pre & c & domain & e & post & -> & Hc & Hne & Hall & He).
    right. exists pre, c, (domain ++ "." ++ String e post).
    split; [reflexivity|]. split; [exact Hc|].
    apply match_domain_iff. exists domain, e, post. repeat split; assumption.
Qed.

(** ** A pass over the registry, field by field *)

(** X11: a pass over a registry is the pass over its first fields followed
    by the pass over the others: the calls follow the order of the
    registry, a field that fails does not stop the fields after it, and
    the result is [true] only when both parts are. *)
Theorem validate_with_app (st1 st2 : list (string * list rule)) (p : page) :
  result_of (validate_with (st1 ++ st2)) p
  = result_of (validate_with st1) p && result_of (validate_with st2) p
  /\ calls_of (validate_with (st1 ++ st2)) p
     = (calls_of (validate_with st1) p ++ calls_of (validate_with st2) p)%list.
Proof.
  rewrite !validate_with_result, !validate_with_calls.
  rewrite forallb_app, flat_map_app. split; reflexivity.
Qed.

Lemma field_calls_head i a (v : rule) (vs : list rule) :
  exists l, field_calls i (a, v :: vs) = Validation a 0 (getValue i a) :: l.
Proof.
  first_failure_cases i a (v :: vs).
  - destruct (field_all_pass i a (v :: vs) Hall) as [_ ->]. cbn [List.length].
    rewrite passing_calls_S. eexists. reflexivity.
  - destruct (field_first_failure i a passing failing later error Hall Hfail)
      as [_ ->].
    destruct passing as [|r passing]; cbn [List.length].
    + eexists. reflexivity.
    + rewrite passing_calls_S. eexists. reflexivity.
Qed.

(** X12: every field of the registry that has a validator gets its first
    validator called on its current value, whatever happened to the
    fields before it. *)
Theorem first_validator_always_called
  (st : list (string * list rule)) (p : page) attribute
  (validation : rule) (validations : list rule) :
  (attribute, validation :: validations) ∈ st ->
  Validation attribute 0 (getValue (inputs p) attribute)
  ∈ calls_of (validate_with st) p.
Proof.
  intros Hin. rewrite validate_with_calls.
  apply list_elem_of_In, in_flat_map.
  exists (attribute, validation :: validations).
  split; [apply list_elem_of_In, Hin|].
  destruct (field_calls_head (inputs p) attribute validation validations)
    as [l ->].
  left. reflexivity.
Qed.

Lemma first_validator_always_called_password :
  Validation "password" 0 "secret"
  ∈ calls_of validate (Page (fun a => if String.eqb a "password" then "secret" else "") []).
Proof.
  refine (first_validator_always_called settings
            (Page (fun a => if String.eqb a "password" then "secret" else "") [])
            "password" validations.required [validations.minLength 3] _).
  unfold settings. do 3 right. left.
Defined.

(** X13: what a pass never does.  Every call it makes concerns a field of
    the registry.  A validator is only called on the current value of its
    own field, at a position the field has.  A text is only displayed if
    it is empty or is the finalized error that a validator of that field
    returns on the field's current value. *)
Theorem calls_are_about_the_registry
  (st : list (string * list rule)) (p : page) (c : call) :
  c ∈ calls_of (validate_with st) p ->
  exists validations,
    (attribute_of c, validations) ∈ st
    /\ match c with
       | Validation attribute k value =>
           value = getValue (inputs p) attribute /\ k < List.length validations
       | DisplayError attribute text =>
           text = ""
           \/ exists (validation : rule) error,
                validation ∈ validations
                /\ validation (inputs p) (getValue (inputs p) attribute)
                   = Invalid error
                /\ text = finalize attribute error
       end.
Proof.
  rewrite validate_with_calls. intros Hc.
  apply list_elem_of_In, in_flat_map in Hc as ([a vs] & Hin & Hc).
  apply list_elem_of_In in Hin. apply list_elem_of_In in Hc.
  first_failure_cases (inputs p) a vs.
  - destruct (field_all_pass (inputs p) a vs Hall) as [_ Hcalls].
    rewrite Hcalls in Hc.
    apply elem_of_passing_calls in Hc as [(j & -> & Hj) | ->];
      exists vs; (split; [exact Hin|]); cbn.
    + split; [reflexivity | lia].
    + left. reflexivity.
  - destruct (field_first_failure (inputs p) a passing failing later error
                Hall Hfail) as [_ Hcalls].
    rewrite Hcalls in Hc. exists (passing ++ failing :: later)%list.
    apply elem_of_app in Hc as [Hc | Hc].
    + apply elem_of_passing_calls in Hc as [(j & -> & Hj) | ->];
        (split; [exact Hin|]); cbn.
      * split; [reflexivity|]. rewrite length_app. cbn. lia.
      * left. reflexivity.
    + apply elem_of_cons in Hc as [-> | Hc]; [|apply elem_of_cons in Hc as [-> | Hc]].
      * split; [exact Hin|]. cbn. split; [reflexivity|].
        rewrite length_app. cbn. lia.
      * split; [exact Hin|]. cbn. right. exists failing, error.
        split; [|split; [exact Hfail | reflexivity]].
        apply elem_of_app. right. left.
      * apply elem_of_nil in Hc. contradiction.
Qed.

Lemma calls_are_about_the_registry_password :
  exists validations,
    ("password", validations) ∈ settings
    /\ "secret" = "secret" /\ 1 < List.length validations.
Proof.
  refine (calls_are_about_the_registry settings
            (Page (fun a => if String.eqb a "password" then "secret" else "") [])
            (Validation "password" 1 "secret") _).
  vm_compute. do 8 right. left.
Defined.

Lemma passing_steps i a (vs : list rule) :
  forall done : list rule,
    Forall (passes i a) vs ->
    exists l,
      passing_calls a (getValue i a) (List.length done) (List.length vs)
      = flat_map (step_calls i) l
      /\ Forall (fun '(a', k, r) =>
                   a' = a /\ forall rest : list rule,
                               (done ++ vs ++ rest)%list !! k = Some r) l.
Proof.
  induction vs as [|r vs IH]; intros done Hall.
  - exists []. split; [reflexivity | constructor].
  - inversion Hall as [|? ? Hr Hvs]; subst.
    destruct (IH (done ++ [r])%list Hvs) as (l & Hl & Hsteps).
    exists ((a, List.length done, r) :: l). split.
    + cbn [List.length flat_map]. rewrite passing_calls_S.
      rewrite length_app, Nat.add_1_r in Hl. rewrite Hl.
      unfold step_calls at 2. unfold passes in Hr. rewrite Hr. reflexivity.
    + constructor.
      * split; [reflexivity|]. intros rest.
        apply (list_lookup_middle done (vs ++ rest) r). reflexivity.
      * eapply Forall_impl; [|exact Hsteps].
        intros [[a' k] r'] [Ha Hk]. split; [exact Ha|]. intros rest.
        specialize (Hk rest). rewrite <- app_assoc in Hk. exact Hk.
Qed.

(** X14: the calls of a pass come in pairs, one pair for each validator
    the engine runs, in order: the validator, taken from the list of a
    field of the registry at position [k], is called on the current value
    of the field, and is followed at once by one call of [displayError]
    for the same field, with the empty text when the validator accepted
    (a [hideError]) and with its finalized error when it did not.  There
    is no other call. *)
Theorem one_display_per_validator (st : list (string * list rule)) (p : page) :
  exists l : list (string * nat * rule),
    calls_of (validate_with st) p = flat_map (step_calls (inputs p)) l
    /\ Forall (fun '(a, k, r) =>
                 exists vs : list rule, (a, vs) ∈ st /\ vs !! k = Some r) l.
Proof.
  rewrite validate_with_calls.
  induction st as [|[a vs] st (l & Hl & Hsteps)].
  - exists []. split; [reflexivity | constructor].
  - cbn [flat_map]. rewrite Hl.
    assert (exists l0,
               field_calls (inputs p) (a, vs) = flat_map (step_calls (inputs p)) l0
               /\ Forall (fun '(a', k, r) => a' = a /\ vs !! k = Some r) l0)
      as (l0 & -> & Hl0).
    { first_failure_cases (inputs p) a vs.
      - destruct (field_all_pass (inputs p) a vs Hall) as [_ ->].
        destruct (passing_steps (inputs p) a vs [] Hall) as (l0 & E0 & H0).
        cbn [List.length] in E0. rewrite E0.
        exists l0. split; [reflexivity|].
        eapply Forall_impl; [|exact H0].
        intros [[a' k] r] [Ha Hk]. split; [exact Ha|].
        specialize (Hk []). cbn [app] in Hk. rewrite app_nil_r in Hk. exact Hk.
      - destruct (field_first_failure (inputs p) a passing failing later error
                    Hall Hfail) as [_ ->].
        destruct (passing_steps (inputs p) a passing [] Hall) as (l1 & E1 & H1).
        cbn [List.length] in E1. rewrite E1.
        exists (l1 ++ [(a, List.length passing, failing)])%list. split.
        + rewrite flat_map_app. cbn [flat_map]. unfold step_calls at 3.
          rewrite Hfail, app_nil_r. reflexivity.
        + apply Forall_app. split.
          * eapply Forall_impl; [|exact H1].
            intros [[a' k] r] [Ha Hk]. split; [exact Ha|]. apply Hk.
          * repeat constructor.
            apply (list_lookup_middle passing later failing). reflexivity. }
    exists (l0 ++ l)%list. split; [rewrite flat_map_app; reflexivity|].
    apply Forall_app. split.
    + eapply Forall_impl; [|exact Hl0].
      intros [[a' k] r] [-> Hk]. exists vs. split; [left | exact Hk].
    + eapply Forall_impl; [|exact Hsteps].
      intros [[a' k] r] (vs' & Hin & Hk). exists vs'. split; [right; exact Hin | exact Hk].
Qed.

(** ** What [validate()] displays for each field of the source *)

Lemma settings_NoDup : NoDup settings.*1.
Proof. compute_done. Qed.

Lemma shown_settings_field a vs p :
  (a, vs) ∈ settings ->
  shown a (calls_of validate p) = shown a (field_calls (inputs p) (a, vs)).
Proof.
  intros Hin. unfold validate.
  rewrite validate_with_calls, <- shown_about.
  rewrite (about_field _ _ _ _ settings_NoDup Hin). reflexivity.
Qed.

Lemma shown_field_all_pass i a vs :
  Forall (passes i a) vs ->
  shown a (field_calls i (a, vs)) = repeat "" (List.length vs).
Proof.
  intros Hall. destruct (field_all_pass i a vs Hall) as [_ ->].
  apply shown_passing_calls.
Qed.

Lemma shown_field_first_failure i a (passing : list rule) (failing : rule)
  (later : list rule) error :
  Forall (passes i a) passing ->
  failing i (getValue i a) = Invalid error ->
  shown a (field_calls i (a, passing ++ failing :: later)%list)
  = (repeat "" (List.length passing) ++ [finalize a error])%list.
Proof.
  intros Hall Hfail.
  destruct (field_first_failure i a passing failing later error Hall Hfail)
    as [_ ->].
  apply shown_first_failure.
Qed.

Lemma required_eq (i : form) (v : string) :
  validations.required i v
  = if String.eqb v "" then Invalid "The {attribute} field is required." else Valid.
Proof. destruct v; reflexivity. Qed.

(** X15: for the name, [validate()] displays the [required] message when
    the input is empty and the empty text otherwise. *)
Theorem name_feedback (p : page) :
  shown "name" (calls_of validate p)
  = if String.eqb (getValue (inputs p) "name") ""
    then ["The name field is required."]
    else [""].
Proof.
  rewrite (shown_settings_field "name" [validations.required]) by left.
  destruct (String.eqb (getValue (inputs p) "name") "") eqn:E.
  - apply (shown_field_first_failure _ "name" [] validations.required []
             "The {attribute} field is required."); [constructor|].
    rewrite required_eq, E. reflexivity.
  - apply (shown_field_all_pass _ "name" [validations.required]).
    repeat constructor. unfold passes. rewrite required_eq, E. reflexivity.
Qed.

(** X16: for the email, [validate()] displays the [required] message when
    the input is empty, the email message when it is not empty and does
    not hold the pattern, and only empty texts otherwise. *)
Theorem email_feedback (p : page) :
  shown "email" (calls_of validate p)
  = let v := getValue (inputs p) "email" in
    if String.eqb v "" then ["The email field is required."]
    else if test_email v then [""; ""]
    else [""; "The email must be a valid email address."].
Proof.
  rewrite (shown_settings_field "email" [validations.required; validations.email])
    by (right; left).
  cbv zeta. destruct (String.eqb (getValue (inputs p) "email") "") eqn:E.
  - apply (shown_field_first_failure _ "email" [] validations.required
             [validations.email] "The {attribute} field is required.");
      [constructor|].
    rewrite required_eq, E. reflexivity.
  - assert (Hreq : passes (inputs p) "email" validations.required)
      by (unfold passes; rewrite required_eq, E; reflexivity).
    destruct (test_email (getValue (inputs p) "email")) eqn:T.
    + apply (shown_field_all_pass _ "email"
               [validations.required; validations.email]).
      repeat constructor; [exact Hreq|].
      unfold passes, validations.email. rewrite T. reflexivity.
    + apply (shown_field_first_failure _ "email" [validations.required]
               validations.email []
               "The {attribute} must be a valid email address.");
        [repeat constructor; exact Hreq|].
      unfold validations.email. rewrite T. reflexivity.
Qed.

(** X17: for the username, [validate()] always displays a message: the
    [required] one when the input is empty, and for every other input the
    one of [betweenLength(3, 16)], whatever the length of the input. *)
Theorem username_feedback (p : page) :
  shown "username" (calls_of validate p)
  = if String.eqb (getValue (inputs p) "username") ""
    then ["The username field is required."]
    else [""; "The username must be between 3 and 16 characters."].
Proof.
  rewrite (shown_settings_field "username"
             [validations.required; validations.betweenLength 3 16])
    by (do 2 right; left).
  destruct (String.eqb (getValue (inputs p) "username") "") eqn:E.
  - apply (shown_field_first_failure _ "username" [] validations.required
             [validations.betweenLength 3 16]
             "The {attribute} field is required."); [constructor|].
    rewrite required_eq, E. reflexivity.
  - apply (shown_field_first_failure _ "username" [validations.required]
             (validations.betweenLength 3 16) []
             "The {attribute} must be between 3 and 16 characters.").
    + repeat constructor. unfold passes. rewrite required_eq, E. reflexivity.
    + unfold validations.betweenLength.
      destruct ((len (getValue (inputs p) "username") <=? 3)%Z
                && (len (getValue (inputs p) "username") >=? 16)%Z) eqn:B;
        [|reflexivity].
      apply andb_prop in B as [B1%Z.leb_le B2%geb_true_iff]. lia.
Qed.

(** X18: for the password, [validate()] displays the [required] message
    when the input is empty, the [minLength(3)] message when it has one
    or two characters, and only empty texts from three characters on. *)
Theorem password_feedback (p : page) :
  shown "password" (calls_of validate p)
  = let v := getValue (inputs p) "password" in
    if String.eqb v "" then ["The password field is required."]
    else if (len v <? 3)%Z
         then [""; "The password must be at least 3 characters."]
    else [""; ""].
Proof.
  rewrite (shown_settings_field "password"
             [validations.required; validations.minLength 3])
    by (do 3 right; left).
  cbv zeta. destruct (String.eqb (getValue (inputs p) "password") "") eqn:E.
  - apply (shown_field_first_failure _ "password" [] validations.required
             [validations.minLength 3]
             "The {attribute} field is required."); [constructor|].
    rewrite required_eq, E. reflexivity.
  - assert (Hreq : passes (inputs p) "password" validations.required)
      by (unfold passes; rewrite required_eq, E; reflexivity).
    destruct (len (getValue (inputs p) "password") <? 3)%Z eqn:L.
    + apply (shown_field_first_failure _ "password" [validations.required]
               (validations.minLength 3) []
               "The {attribute} must be at least 3 characters.");
        [repeat constructor; exact Hreq|].
      unfold validations.minLength. apply Z.ltb_lt in L.
      destruct (len (getValue (inputs p) "password") >=? 3)%Z eqn:G;
        [apply geb_true_iff in G; lia | reflexivity].
    + apply (shown_field_all_pass _ "password"
               [validations.required; validations.minLength 3]).
      repeat constructor; [exact Hreq|].
      unfold passes, validations.minLength. apply Z.ltb_ge in L.
      destruct (len (getValue (inputs p) "password") >=? 3)%Z eqn:G;
        [reflexivity|].
      assert (len (getValue (inputs p) "password") >= 3)%Z as G' by lia.
      apply geb_true_iff in G'. congruence.
Qed.

(** X19: for the confirmation, [validate()] displays the empty text when
    the input equals the password as it is then (two empty inputs
    included), and otherwise the confirmation message, which names the
    field by its label [password]. *)
Theorem confirm_password_feedback (p : page) :
  shown "confirm-password" (calls_of validate p)
  = if String.eqb (getValue (inputs p) "confirm-password")
                  (getValue (inputs p) "password")
    then [""]
    else ["The password confirmation does not match."].
Proof.
  rewrite (shown_settings_field "confirm-password"
             [validations.confirmation "password"])
    by (do 4 right; left).
  destruct (String.eqb (getValue (inputs p) "confirm-password")
                       (getValue (inputs p) "password")) eqn:E.
  - apply (shown_field_all_pass _ "confirm-password"
             [validations.confirmation "password"]).
    repeat constructor. unfold passes, validations.confirmation. cbv zeta.
    rewrite E. reflexivity.
  - apply (shown_field_first_failure _ "confirm-password" []
             (validations.confirmation "password") []
             "The {attribute} confirmation does not match."); [constructor|].
    unfold validations.confirmation. cbv zeta. rewrite E. reflexivity.
Qed.

(** ** The handlers *)

Lemma validate_result_false (p : page) : (validate p).1 = false.
Proof.
  destruct (validate p).1 eqn:Hres; [|reflexivity]. exfalso.
  assert (Hpass := proj1 (validate_with_true settings p) Hres "username"
            [validations.required; validations.betweenLength 3 16]
            (validations.betweenLength 3 16)).
  unfold passes in Hpass. apply betweenLength_bounds in Hpass.
  - lia.
  - unfold settings. do 2 right. left.
  - right. left.
Qed.

(** X20: with the registry of the source a submit never succeeds.
    Whatever the fields hold, the handler prevents the default
    submission, runs [validate()] and stops there: the form is not reset,
    [hideErrors()] is not called, no alert is raised, and the inputs stay
    as the user left them. *)
Theorem submit_never_succeeds (w : window) :
  on_submit w
  = (tt, Window (validate (document w)).2 (defaults w)
                (events w ++ [PreventDefault]))
  /\ inputs (document (on_submit w).2) = inputs (document w).
Proof.
  assert (Hrun : on_submit w
                 = (tt, Window (validate (document w)).2 (defaults w)
                               (events w ++ [PreventDefault]))).
  { pose proof (validate_result_false (document w)) as Hres.
    unfold on_submit, on_document, emit.
    unfold mbind, Handler_bind, mret, Handler_ret. cbn [document defaults events].
    destruct (validate (document w)) as [ok p']. cbn [fst snd] in *. subst ok.
    reflexivity. }
  split; [exact Hrun|]. rewrite Hrun. cbn [snd document].
  unfold validate. rewrite validate_with_run. reflexivity.
Qed.
